(** * realtime-notify: the SSE connection registry and broadcast core

    A shallow embedding of [server.js] (the version with demo mode, as listed
    in SETUP.md; the plain [src/server.js] is the same program with
    [DEMO_MODE = false] and no [demoMode] field in its JSON answers).

    The server is a single-threaded event loop: every handler runs to
    completion, so a handler is a function from the world before it to the
    world after it.  What the handlers do to the outside (writes to response
    streams, console output, Pub/Sub publish and ack calls) is appended, in
    program order, to the [trace] of the world. *)

From Stdlib Require Import Ascii String List Bool Arith NArith ZArith Lia.
From Stdlib Require Import Permutation DecimalString DecimalN.
Import ListNotations.

Local Open Scope string_scope.
Local Open Scope list_scope.

Set Implicit Arguments.
Set Warnings "-register-all".

(** ** JavaScript values *)

(** The values that flow through the handlers: what [JSON.parse] and
    [express.json()] produce, plus [undefined] for absent properties.
    Numbers are only ever tested for truthiness or copied, so an integer
    stands for them. *)
Inductive JsVal : Type :=
| JUndefined
| JNull
| JBool (b : bool)
| JNum (z : Z)
| JStr (s : string)
| JArr (items : list JsVal)
| JObj (fields : list (string * JsVal)).

(** [ToBoolean]: what [!v] and [v || d] look at. *)
Definition truthy (v : JsVal) : bool :=
  match v with
  | JUndefined | JNull => false
  | JBool b => b
  | JNum z => negb (z =? 0)%Z
  | JStr s => negb (s =? "")
  | JArr _ | JObj _ => true
  end.

(** [a || b] *)
Definition js_or (a b : JsVal) : JsVal := if truthy a then a else b.

Fixpoint assoc (k : string) (fields : list (string * JsVal)) : option JsVal :=
  match fields with
  | [] => None
  | (k', v) :: rest => if k' =? k then Some v else assoc k rest
  end.

(** [v.k] for the property names the server reads ([title], [message],
    [type], [data], [messageId], [publishTime]).  [None] is the [TypeError]
    of reading a property of [undefined] or [null]; primitives and arrays
    have none of these properties. *)
Definition prop (v : JsVal) (k : string) : option JsVal :=
  match v with
  | JUndefined | JNull => None
  | JObj fields =>
      Some (match assoc k fields with Some x => x | None => JUndefined end)
  | _ => Some JUndefined
  end.

(** [`${n}`] for a non-negative integer. *)
Definition dec (n : N) : string := NilZero.string_of_uint (N.to_uint n).

(** ** The insertion-ordered [Map] of ECMAScript

    [Map.prototype.forEach] walks the live entry list by index, and
    [Map.prototype.delete] empties the slot of the entry instead of removing
    it; a slot that was emptied is skipped and a slot appended during the walk
    is visited.  The registry keeps that representation, because
    [broadcastToClients] deletes from the map it is iterating over. *)
Module JsMap.
Section WithValues.
Variable V : Type.

Definition t : Type := list (option (string * V)).

Definition empty : t := [].

Fixpoint entries (m : t) : list (string * V) :=
  match m with
  | [] => []
  | None :: m' => entries m'
  | Some e :: m' => e :: entries m'
  end.

Definition keys (m : t) : list string := map fst (entries m).

Definition size (m : t) : nat := length (entries m).

Fixpoint get (m : t) (k : string) : option V :=
  match m with
  | [] => None
  | None :: m' => get m' k
  | Some (k', v) :: m' => if k' =? k then Some v else get m' k
  end.

Definition has (m : t) (k : string) : bool :=
  match get m k with Some _ => true | None => false end.

(** [m.set(k, v)]: an existing entry keeps its place. *)
Fixpoint set (m : t) (k : string) (v : V) : t :=
  match m with
  | [] => [Some (k, v)]
  | None :: m' => None :: set m' k v
  | Some (k', v') :: m' =>
      if k' =? k then Some (k, v) :: m' else Some (k', v') :: set m' k v
  end.

(** [m.delete(k)] *)
Fixpoint delete (m : t) (k : string) : t :=
  match m with
  | [] => []
  | None :: m' => None :: delete m' k
  | Some (k', v') :: m' =>
      if k' =? k then None :: m' else Some (k', v') :: delete m' k
  end.

(** Keys are unique among the live entries. *)
Definition wf (m : t) : Prop := NoDup (keys m).

(** [m.forEach(cb)] from slot [i] on, for a callback that works on a state
    [S] in which the map lives ([slots] reads it back after every call).
    [None] means the fuel ran out before the walk reached the end of the
    entry list. *)
Fixpoint forEach_from (S : Type) (slots : S -> t) (cb : V -> string -> S -> S)
         (fuel i : nat) (s : S) : option S :=
  match nth_error (slots s) i with
  | None => Some s
  | Some slot =>
      match fuel with
      | O => None
      | Datatypes.S fuel' =>
          forEach_from slots cb fuel' (Datatypes.S i)
            (match slot with
             | None => s
             | Some (k, v) => cb v k s
             end)
      end
  end.
End WithValues.
End JsMap.

(** ** Envelopes and stream frames *)

(** A timestamp field is either the ISO string of an instant
    ([new Date(ms).toISOString()]) or a value copied from a request. *)
Inductive Timestamp : Type :=
| ISOString (ms : N)
| Verbatim (v : JsVal).

(** The [data] object of a notification. *)
Record NotificationData : Type := {
  id : JsVal;
  title : JsVal;
  message : JsVal;
  notificationType : JsVal;
  timestamp : Timestamp;
  source : string
}.

(** The object serialised into one frame [`data: ${JSON.stringify(o)}\n\n`]:
    [{ type: 'connected', clientId, message, pubsubEnabled, demoMode }] or
    [{ type: 'notification', data }]. *)
Inductive Frame : Type :=
| Connected (clientId : string) (pubsubEnabled demoMode : bool)
| Notification (data : NotificationData).

(** ** Response streams *)

(** What [res.write] does is up to the stream: it takes the chunk, it throws,
    or (a destroyed socket) it returns without sending anything. *)
Inductive SinkStatus : Type := Writable | Throws | Destroyed.

Inductive WriteResult : Type := Delivered | Threw | Dropped.

Definition write_result (st : SinkStatus) : WriteResult :=
  match st with
  | Writable => Delivered
  | Throws => Threw
  | Destroyed => Dropped
  end.

(** One [req]/[res] pair of a GET /events request.  [conn_onclose] is the
    [clientId] captured by the ['close'] listener, once it is installed. *)
Record Conn : Type := {
  conn_status : SinkStatus;
  conn_onclose : option string
}.

(** The four places of the program that call [write]. *)
Inductive Site : Type :=
| SiteAck
| SiteBroadcast
| SiteWelcome
| SiteScript (index : nat).

(** ** Timers *)

Record Sample : Type := {
  sample_title : string;
  sample_message : string;
  sample_type : string
}.

(** The two closures handed to [setTimeout]. *)
Inductive Task : Type :=
| WelcomeTask (res : nat)
| DemoTask (clientRes : nat) (sample : Sample) (index : nat).

Record Timer : Type := { due : N; task : Task }.

(** ** Effects *)

Record PublishData : Type := {
  pub_title : JsVal;
  pub_message : JsVal;
  pub_type : JsVal;
  pub_timestamp : Timestamp
}.

(** The [console.log] and [console.error] calls. *)
Inductive LogEntry : Type :=
| LogPubSubReceived (data : JsVal)
| LogProcessingError
| LogSendError (clientId : string)
| LogDelivered (sentCount : nat)
| LogClientConnected (clientId : string) (size : nat)
| LogClientDisconnected (clientId : string) (size : nat)
| LogPublished (messageId : string)
| LogPublishError
| LogPushReceived (data : JsVal)
| LogPushError.

Inductive Effect : Type :=
| EWrite (site : Site) (res : nat) (frame : Frame) (result : WriteResult)
| ELog (entry : LogEntry)
| EAck (messageId : string)
| EPublish (data : PublishData).

(** ** The world *)

Record World : Type := {
  DEMO_MODE : bool;
  topic : bool;                 (* is [topic] set *)
  subscription : bool;          (* is [subscription] set *)
  now : N;                      (* [Date.now()] *)
  clients : JsMap.t nat;        (* [clients]: clientId -> response object *)
  conns : list Conn;            (* the response objects, by reference *)
  timers : list Timer;          (* pending [setTimeout] callbacks *)
  trace : list Effect
}.

Definition with_clients (m : JsMap.t nat) (w : World) : World :=
  {| DEMO_MODE := DEMO_MODE w; topic := topic w; subscription := subscription w;
     now := now w; clients := m; conns := conns w; timers := timers w;
     trace := trace w |}.

Definition with_conns (cs : list Conn) (w : World) : World :=
  {| DEMO_MODE := DEMO_MODE w; topic := topic w; subscription := subscription w;
     now := now w; clients := clients w; conns := cs; timers := timers w;
     trace := trace w |}.

Definition with_timers (ts : list Timer) (w : World) : World :=
  {| DEMO_MODE := DEMO_MODE w; topic := topic w; subscription := subscription w;
     now := now w; clients := clients w; conns := conns w; timers := ts;
     trace := trace w |}.

Definition with_now (t : N) (w : World) : World :=
  {| DEMO_MODE := DEMO_MODE w; topic := topic w; subscription := subscription w;
     now := t; clients := clients w; conns := conns w; timers := timers w;
     trace := trace w |}.

Definition emit (e : Effect) (w : World) : World :=
  {| DEMO_MODE := DEMO_MODE w; topic := topic w; subscription := subscription w;
     now := now w; clients := clients w; conns := conns w; timers := timers w;
     trace := trace w ++ [e] |}.

Definition sink_status (w : World) (res : nat) : SinkStatus :=
  match nth_error (conns w) res with
  | Some c => conn_status c
  | None => Throws
  end.

(** [res.write(frame)] at call site [site]. *)
Definition res_write (site : Site) (res : nat) (frame : Frame) (w : World)
  : WriteResult * World :=
  let r := write_result (sink_status w res) in
  (r, emit (EWrite site res frame r) w).

(** [setTimeout(task, delay)] *)
Definition setTimeout (tk : Task) (delay : N) (w : World) : World :=
  with_timers (timers w ++ [{| due := now w + delay; task := tk |}]) w.

(** ** broadcastToClients *)

(** The body of the arrow function given to [clients.forEach]; the second
    component of the state is the local [sentCount]. *)
Definition deliver (notification : NotificationData)
           (client : nat) (clientId : string) (s : World * nat) : World * nat :=
  let (w, sentCount) := s in
  match res_write SiteBroadcast client (Notification notification) w with
  | (Threw, w') =>
      (with_clients (JsMap.delete (clients w') clientId)
                    (emit (ELog (LogSendError clientId)) w'),
       sentCount)
  | (_, w') => (w', S sentCount)
  end.

Definition broadcast_loop (notification : NotificationData) (fuel : nat)
           (s : World * nat) : option (World * nat) :=
  JsMap.forEach_from (fun s => clients (fst s)) (deliver notification) fuel 0 s.

(** The function has no [return]: its value is [undefined].  The walk ends
    within [length (clients w)] steps ([broadcast_loop_returns] below), so the
    [None] branch is never taken. *)
Definition broadcastToClients (notification : NotificationData) (w : World)
  : JsVal * World :=
  match broadcast_loop notification (length (clients w)) (w, 0) with
  | Some (w', sentCount) => (JUndefined, emit (ELog (LogDelivered sentCount)) w')
  | None => (JUndefined, w)
  end.

(** ** GET /events *)

Fixpoint update_nth (A : Type) (i : nat) (x : A) (l : list A) : list A :=
  match l, i with
  | [], _ => []
  | _ :: l', O => x :: l'
  | y :: l', S i' => y :: update_nth i' x l'
  end.

Fixpoint remove_nth (A : Type) (i : nat) (l : list A) : list A :=
  match l, i with
  | [], _ => []
  | _ :: l', O => l'
  | y :: l', S i' => y :: remove_nth i' l'
  end.

(** [array.forEach((x, index) => ...)] on an array that the callback leaves
    alone. *)
Fixpoint Array_forEach (A S : Type) (cb : A -> nat -> S -> S)
         (l : list A) (index : nat) (s : S) : S :=
  match l with
  | [] => s
  | x :: l' => Array_forEach cb l' (Datatypes.S index) (cb x index s)
  end.

(** What the [try] block of POST /pubsub/push can throw: a [TypeError] (a
    property of [undefined] or [null] was read) or whatever the decoding of
    the payload throws. *)
Inductive Exn : Type := TypeError | DecodeError.

(** [RespCaught status e] is [res.status(status).json({ error: error.message })]
    for the caught exception [e]; the text of the message is the engine's. *)
Inductive HttpResult : Type :=
| RespJson (status : nat) (body : JsVal)
| RespText (status : nat) (body : string)
| RespCaught (status : nat) (e : Exn)
| RespStream (res : nat)        (* the event stream, left open *)
| RespUncaught.                 (* an exception left the handler *)

Definition DEMO_NOTIFICATIONS : list Sample :=
  [ {| sample_title := "田中さん";
       sample_message := "お疲れさまです！例の資料、確認できました。ありがとうございます。";
       sample_type := "info" |};
    {| sample_title := "佐藤さん";
       sample_message := "明日のミーティング、15時からでよかったですよね？";
       sample_type := "info" |};
    {| sample_title := "山田さん";
       sample_message := "ランチ行きませんか？新しいカフェができたらしいです";
       sample_type := "success" |};
    {| sample_title := "鈴木さん";
       sample_message := "先ほどの件、確認できました。問題なさそうです！";
       sample_type := "success" |} ].

Definition welcomeNotification (t : N) : NotificationData :=
  {| id := JStr ("demo_welcome_" ++ dec t);
     title := JStr "デモモードへようこそ";
     message := JStr "これはデモ環境です。サンプルの通知が表示されます。";
     notificationType := JStr "info";
     timestamp := ISOString t;
     source := "demo" |}.

Definition demoNotification (t : N) (sample : Sample) (index : nat)
  : NotificationData :=
  {| id := JStr ("demo_" ++ dec t ++ "_" ++ dec (N.of_nat index));
     title := JStr (sample_title sample);
     message := JStr (sample_message sample);
     notificationType := JStr (sample_type sample);
     timestamp := ISOString t;
     source := "demo" |}.

(** What a timer callback does when it runs: build the envelope with the
    clock of that moment, write it, and swallow whatever [write] throws
    ([try { ... } catch (e) {}]). *)
Definition run_task (tk : Task) (w : World) : World :=
  match tk with
  | WelcomeTask res =>
      match res_write SiteWelcome res
                      (Notification (welcomeNotification (now w))) w with
      | (Threw, w') => w'
      | (_, w') => w'
      end
  | DemoTask clientRes sample index =>
      match res_write (SiteScript index) clientRes
                      (Notification (demoNotification (now w) sample index)) w with
      | (Threw, w') => w'
      | (_, w') => w'
      end
  end.

Definition sendDemoNotificationsToClient (clientRes : nat) (w : World) : World :=
  if negb (DEMO_MODE w) then w
  else
    Array_forEach
      (fun sample index w =>
         setTimeout (DemoTask clientRes sample index)
                    (3000 + N.of_nat index * 5000) w)
      DEMO_NOTIFICATIONS 0 w.

(** [req.on('close', ...)]: remember the listener on the connection. *)
Definition on_close (res : nat) (clientId : string) (w : World) : World :=
  with_conns
    (update_nth res {| conn_status := sink_status w res;
                       conn_onclose := Some clientId |} (conns w)) w.

(** The handler of GET /events, for the response object [res] and the
    [clientId] query parameter (absent, or a string). *)
Definition events (query_clientId : option string) (res : nat) (w : World)
  : HttpResult * World :=
  let clientId : string :=
    match query_clientId with
    | Some s => if s =? "" then ("client_" ++ dec (now w))%string else s
    | None => ("client_" ++ dec (now w))%string
    end in
  match res_write SiteAck res
                  (Connected clientId (subscription w) (DEMO_MODE w)) w with
  | (Threw, w1) => (RespUncaught, w1)
  | (_, w1) =>
      let w2 := with_clients (JsMap.set (clients w1) clientId res) w1 in
      let w3 :=
        emit (ELog (LogClientConnected clientId (JsMap.size (clients w2)))) w2 in
      let w4 :=
        if DEMO_MODE w3
        then sendDemoNotificationsToClient res
               (setTimeout (WelcomeTask res) 1000 w3)
        else w3 in
      (RespStream res, on_close res clientId w4)
  end.

(** The ['close'] listener of a connection. *)
Definition close_listener (clientId : string) (w : World) : World :=
  let w1 := with_clients (JsMap.delete (clients w) clientId) w in
  emit (ELog (LogClientDisconnected clientId (JsMap.size (clients w1)))) w1.

(** ** POST /notify *)

(** How [await topic.publishMessage(...)] ends. *)
Inductive PublishOutcome : Type :=
| Published (messageId : string)
| PublishFailed.

Definition notify (body : JsVal) (outcome : PublishOutcome) (w : World)
  : HttpResult * World :=
  if DEMO_MODE w then
    (RespJson 403
       (JObj [("error", JStr "デモモードでは通知の送信はできません");
              ("demoMode", JBool true)]), w)
  else
    match prop body "title", prop body "message", prop body "type" with
    | Some title, Some message, Some type0 =>
        let type := match type0 with JUndefined => JStr "info" | _ => type0 end in
        if negb (truthy message) then
          (RespJson 400 (JObj [("error", JStr "メッセージは必須です")]), w)
        else
          let notificationData :=
            {| pub_title := js_or title (JStr "通知");
               pub_message := message;
               pub_type := type;
               pub_timestamp := ISOString (now w) |} in
          if topic w then
            let w1 := emit (EPublish notificationData) w in
            match outcome with
            | Published messageId =>
                (RespJson 200
                   (JObj [("success", JBool true);
                          ("messageId", JStr messageId);
                          ("via", JStr "pubsub")]),
                 emit (ELog (LogPublished messageId)) w1)
            | PublishFailed =>
                (RespJson 500
                   (JObj [("error", JStr "Pub/Sub送信に失敗しました")]),
                 emit (ELog LogPublishError) w1)
            end
          else
            let notification :=
              {| id := JNum (Z.of_N (now w));
                 title := pub_title notificationData;
                 message := pub_message notificationData;
                 notificationType := pub_type notificationData;
                 timestamp := pub_timestamp notificationData;
                 source := "direct" |} in
            let w1 := snd (broadcastToClients notification w) in
            (RespJson 200
               (JObj [("success", JBool true);
                      ("via", JStr "direct");
                      ("sentCount",
                       JNum (Z.of_nat (JsMap.size (clients w1))))]),
             w1)
    | _, _, _ => (RespUncaught, w)
    end.

(** ** POST /pubsub/push *)

(** The [catch] block: [console.error], then the 500 answer. *)
Definition push_failed (e : Exn) (w : World) : HttpResult * World :=
  (RespCaught 500 e, emit (ELog LogPushError) w).

(** [decoded] is the value of
    [JSON.parse(Buffer.from(pubsubMessage.data, 'base64').toString())],
    [None] when that expression throws. *)
Definition pubsub_push (body : JsVal) (decoded : option JsVal) (w : World)
  : HttpResult * World :=
  if DEMO_MODE w then
    (RespJson 403 (JObj [("error", JStr "Demo mode"); ("demoMode", JBool true)]),
     w)
  else
    match prop body "message" with
    | None => push_failed TypeError w
    | Some pubsubMessage =>
        if negb (truthy pubsubMessage) then
          (RespJson 400 (JObj [("error", JStr "Invalid Pub/Sub message")]), w)
        else
          match decoded with
          | None => push_failed DecodeError w
          | Some data =>
              let w1 := emit (ELog (LogPushReceived data)) w in
              match prop pubsubMessage "messageId",
                    prop data "title", prop data "message", prop data "type",
                    prop pubsubMessage "publishTime" with
              | Some messageId, Some title, Some message, Some type,
                Some publishTime =>
                  let notification :=
                    {| id := messageId;
                       title := js_or title (JStr "通知");
                       message := message;
                       notificationType := js_or type (JStr "info");
                       timestamp := Verbatim publishTime;
                       source := "pubsub-push" |} in
                  let w2 := snd (broadcastToClients notification w1) in
                  (RespText 200 "OK", w2)
              | _, _, _, _, _ => push_failed TypeError w1
              end
          end
    end.

(** ** The subscription listener *)

(** A message of the pull subscription.  [msg_data] is the value of
    [JSON.parse(message.data.toString())], [None] when it throws. *)
Record PubSubMessage : Type := {
  msg_id : string;
  msg_data : option JsVal;
  msg_publishTime : N
}.

Definition handlePubSubMessage (m : PubSubMessage) (w : World) : World :=
  let failed (w : World) :=
    emit (EAck (msg_id m)) (emit (ELog LogProcessingError) w) in
  match msg_data m with
  | None => failed w
  | Some data =>
      let w1 := emit (ELog (LogPubSubReceived data)) w in
      match prop data "title", prop data "message", prop data "type" with
      | Some title, Some message, Some type =>
          let notification :=
            {| id := JStr (msg_id m);
               title := js_or title (JStr "通知");
               message := message;
               notificationType := js_or type (JStr "info");
               timestamp := ISOString (msg_publishTime m);
               source := "pubsub" |} in
          let w2 := snd (broadcastToClients notification w1) in
          emit (EAck (msg_id m)) w2
      | _, _, _ => failed w1
      end
  end.

(** ** Start-up *)

(** How a [get()] of a topic or subscription ends: it resolves, it rejects
    with code 5 (NOT_FOUND), or it rejects with something else. *)
Inductive Lookup : Type := Found | NotFound | Failed.

Record PubSubEnv : Type := {
  topic_get : Lookup;
  topic_create : bool;          (* does [createTopic] resolve *)
  subscription_get : Lookup;
  subscription_create : bool    (* does [createSubscription] resolve *)
}.

Definition acquire (get : Lookup) (create : bool) : bool :=
  match get with
  | Found => true
  | NotFound => create
  | Failed => false
  end.

(** [initPubSub]: which of [topic] and [subscription] end up set, and the
    value returned. *)
Definition initPubSub (demo : bool) (env : PubSubEnv) : bool * bool * bool :=
  if demo then (false, false, false)
  else if acquire (topic_get env) (topic_create env) then
    if acquire (subscription_get env) (subscription_create env)
    then (true, true, true)
    else (true, false, false)
  else (false, false, false).

(** The world when the server starts to listen, at clock [t0]. *)
Definition start (demo : bool) (env : PubSubEnv) (t0 : N) : World :=
  let '(tp, sub, _) := initPubSub demo env in
  {| DEMO_MODE := demo; topic := tp; subscription := sub; now := t0;
     clients := JsMap.empty nat; conns := []; timers := []; trace := [] |}.

(** ** The event loop *)

Inductive Event : Type :=
| GetEvents (query_clientId : option string)
| Close (res : nat)
| PostNotify (body : JsVal) (outcome : PublishOutcome)
| PostPush (body : JsVal) (decoded : option JsVal)
| Pulled (m : PubSubMessage)
| Elapse (ms : N)
| Fire (k : nat)
| SinkChange (res : nat) (st : SinkStatus).

(** The [k]-th pending timer runs, if it is due.  (Node runs due timers in
    the order of their due times; the model allows any due timer.) *)
Definition fire (k : nat) (w : World) : World :=
  match nth_error (timers w) k with
  | Some tm =>
      if (due tm <=? now w)%N
      then run_task (task tm) (with_timers (remove_nth k (timers w)) w)
      else w
  | None => w
  end.

(** The peer of connection [res] goes away: the socket is destroyed and the
    ['close'] listener, if installed, runs once. *)
Definition close (res : nat) (w : World) : World :=
  match nth_error (conns w) res with
  | Some c =>
      let w1 :=
        with_conns
          (update_nth res {| conn_status := Destroyed; conn_onclose := None |}
                      (conns w)) w in
      match conn_onclose c with
      | Some clientId => close_listener clientId w1
      | None => w1
      end
  | None => w
  end.

(** A stream that is not destroyed starts or stops throwing on [write], or is
    destroyed. *)
Definition sink_change (res : nat) (st : SinkStatus) (w : World) : World :=
  match nth_error (conns w) res with
  | Some c =>
      match conn_status c with
      | Destroyed => w
      | _ =>
          with_conns
            (update_nth res {| conn_status := st;
                               conn_onclose := conn_onclose c |} (conns w)) w
      end
  | None => w
  end.

Definition step (w : World) (ev : Event) : World :=
  match ev with
  | GetEvents q =>
      let res := length (conns w) in
      snd (events q res
             (with_conns
                (conns w ++ [{| conn_status := Writable;
                                conn_onclose := None |}]) w))
  | Close res => close res w
  | PostNotify body outcome => snd (notify body outcome w)
  | PostPush body decoded => snd (pubsub_push body decoded w)
  | Pulled m => if subscription w then handlePubSubMessage m w else w
  | Elapse ms => with_now (now w + ms) w
  | Fire k => fire k w
  | SinkChange res st => sink_change res st w
  end.

Definition run (w : World) (evs : list Event) : World := fold_left step evs w.

(** ** What the trace says *)

(** The frames that reached the peer of [res], oldest first. *)
Fixpoint received (res : nat) (tr : list Effect) : list Frame :=
  match tr with
  | [] => []
  | EWrite _ r f Delivered :: tr' =>
      if (r =? res)%nat then f :: received res tr' else received res tr'
  | _ :: tr' => received res tr'
  end.

(** The [write] calls made by [broadcastToClients], in order. *)
Fixpoint broadcast_writes (tr : list Effect) : list (nat * Frame * WriteResult) :=
  match tr with
  | [] => []
  | EWrite SiteBroadcast r f x :: tr' => (r, f, x) :: broadcast_writes tr'
  | _ :: tr' => broadcast_writes tr'
  end.

(** ** A broadcast, told from the registry at the moment of the call *)

(** Does [write] throw on the stream [res] in world [w]. *)
Definition throwing (w : World) (res : nat) : bool :=
  match sink_status w res with
  | Throws => true
  | _ => false
  end.

(** The effects of one visit of the [forEach] callback. *)
Definition attempt (notification : NotificationData) (w : World)
           (e : string * nat) : list Effect :=
  let r := write_result (sink_status w (snd e)) in
  EWrite SiteBroadcast (snd e) (Notification notification) r
  :: match r with
     | Threw => [ELog (LogSendError (fst e))]
     | _ => []
     end.

(** The registry after the entries of [es] whose stream throws were deleted. *)
Definition prune (w : World) (es : list (string * nat)) (m : JsMap.t nat)
  : JsMap.t nat :=
  fold_left
    (fun m e => if throwing w (snd e) then JsMap.delete m (fst e) else m) es m.

(** The number of entries of [es] whose [write] returns. *)
Definition sent (w : World) (es : list (string * nat)) : nat :=
  length (filter (fun e => negb (throwing w (snd e))) es).

Definition patch (m : JsMap.t nat) (tr : list Effect) (w : World) : World :=
  {| DEMO_MODE := DEMO_MODE w; topic := topic w; subscription := subscription w;
     now := now w; clients := m; conns := conns w; timers := timers w;
     trace := tr |}.

(** The callback applied to a list of entries, one after the other. *)
Definition deliver_all (notification : NotificationData)
           (es : list (string * nat)) (s : World * nat) : World * nat :=
  fold_left (fun s e => deliver notification (snd e) (fst e) s) es s.

(** The number a broadcast logs, read back from the trace: the argument of
    the last [LogDelivered]. *)
Fixpoint logged_count (tr : list Effect) : option nat :=
  match tr with
  | [] => None
  | ELog (LogDelivered n) :: tr' =>
      match logged_count tr' with
      | Some n' => Some n'
      | None => Some n
      end
  | _ :: tr' => logged_count tr'
  end.

(** The effects that a handler added, going from [w] to [w']. *)
Definition effects_since (w w' : World) : list Effect :=
  skipn (length (trace w)) (trace w').

(** The number of [write] calls of [broadcastToClients] that returned. *)
Definition successes (tr : list Effect) : nat :=
  length (filter (fun x => match snd x with Threw => false | _ => true end)
                 (broadcast_writes tr)).

(** The stream a timer callback writes to. *)
Definition task_res (tk : Task) : nat :=
  match tk with
  | WelcomeTask res => res
  | DemoTask clientRes _ _ => clientRes
  end.

(** The [message.ack()] calls, in order. *)
Fixpoint acks (tr : list Effect) : list string :=
  match tr with
  | [] => []
  | EAck i :: tr' => i :: acks tr'
  | _ :: tr' => acks tr'
  end.

(** The number of completed [broadcastToClients] calls: each ends with its
    one [console.log] of the count. *)
Fixpoint broadcasts (tr : list Effect) : nat :=
  match tr with
  | [] => 0
  | ELog (LogDelivered _) :: tr' => S (broadcasts tr')
  | _ :: tr' => broadcasts tr'
  end.

(** The payload parsed, and to something whose properties can be read. *)
Definition processable (m : PubSubMessage) : bool :=
  match msg_data m with
  | Some JNull | Some JUndefined | None => false
  | Some _ => true
  end.

(** The envelope the subscription listener builds from a parsed payload. *)
Definition pulled_notification (m : PubSubMessage) (data : JsVal)
  : NotificationData :=
  {| id := JStr (msg_id m);
     title := js_or (match prop data "title" with Some v => v | None => JUndefined end)
                    (JStr "通知");
     message := match prop data "message" with Some v => v | None => JUndefined end;
     notificationType :=
       js_or (match prop data "type" with Some v => v | None => JUndefined end)
             (JStr "info");
     timestamp := ISOString (msg_publishTime m);
     source := "pubsub" |}.

(** ** Runs of the server *)

(** A world the server can be in: some events after some start. *)
Definition reachable (w : World) : Prop :=
  exists demo env t0 evs, w = run (start demo env t0) evs.

(** Is the stream [res] the value of a registry entry. *)
Definition registered (w : World) (res : nat) : Prop :=
  exists clientId, In (clientId, res) (JsMap.entries (clients w)).

(** The call site and the frame of the [write] of a timer callback that runs
    at clock [t]. *)
Definition task_write (tk : Task) (t : N) : Site * Frame :=
  match tk with
  | WelcomeTask _ => (SiteWelcome, Notification (welcomeNotification t))
  | DemoTask _ sample index =>
      (SiteScript index, Notification (demoNotification t sample index))
  end.

(** The [write] calls of the script timers of stream [res], in the order in
    which they ran: the index of the entry, the frame, and how the call
    ended. *)
Fixpoint script_writes (res : nat) (tr : list Effect)
  : list (nat * Frame * WriteResult) :=
  match tr with
  | [] => []
  | EWrite (SiteScript i) r f x :: tr' =>
      if (r =? res)%nat then (i, f, x) :: script_writes res tr'
      else script_writes res tr'
  | _ :: tr' => script_writes res tr'
  end.

(** The script entries whose timer has run for stream [res]. *)
Definition script_attempts (res : nat) (tr : list Effect) : list nat :=
  map (fun x => fst (fst x)) (script_writes res tr).

Definition delivered (x : WriteResult) : bool :=
  match x with
  | Delivered => true
  | _ => false
  end.

(** The script envelopes that reached the peer of [res], with their index. *)
Definition script_received (res : nat) (tr : list Effect) : list (nat * Frame) :=
  map fst (filter (fun x => delivered (snd x)) (script_writes res tr)).

(** The script entries whose timer for stream [res] has not run yet. *)
Fixpoint pending (res : nat) (ts : list Timer) : list nat :=
  match ts with
  | [] => []
  | {| task := DemoTask r _ i |} :: ts' =>
      if (r =? res)%nat then i :: pending res ts' else pending res ts'
  | _ :: ts' => pending res ts'
  end.

Definition frame_id (f : Frame) : JsVal :=
  match f with
  | Notification d => id d
  | Connected _ _ _ => JUndefined
  end.

(** A step that leaves timers and the set of streams alone, can only shrink
    the registry, and writes, if at all, from a broadcast. *)
Definition broadcast_effect (w : World) (e : Effect) : Prop :=
  match e with
  | EWrite site res _ x =>
      site = SiteBroadcast /\ registered w res /\
      x = write_result (sink_status w res)
  | _ => True
  end.

Definition quiet (w w' : World) : Prop :=
  DEMO_MODE w' = DEMO_MODE w /\ topic w' = topic w /\
  subscription w' = subscription w /\
  timers w' = timers w /\
  length (conns w') = length (conns w) /\
  JsMap.wf (clients w') /\
  incl (JsMap.entries (clients w')) (JsMap.entries (clients w)) /\
  (forall res, sink_status w res = Destroyed -> sink_status w' res = Destroyed) /\
  exists new, trace w' = trace w ++ new /\ Forall (broadcast_effect w) new.

(** The identifier GET /events settles on. *)
Definition assigned_id (query_clientId : option string) (t : N) : string :=
  match query_clientId with
  | Some s => if s =? "" then "client_" ++ dec t else s
  | None => "client_" ++ dec t
  end.

(** The timers that [sendDemoNotificationsToClient] sets at clock [t]. *)
Fixpoint script_timers (res : nat) (t : N) (samples : list Sample) (index : nat)
  : list Timer :=
  match samples with
  | [] => []
  | sample :: rest =>
      {| due := t + (3000 + N.of_nat index * 5000);
         task := DemoTask res sample index |}
      :: script_timers res t rest (S index)
  end.

Definition demo_timers (res : nat) (t : N) : list Timer :=
  {| due := t + 1000; task := WelcomeTask res |}
  :: script_timers res t DEMO_NOTIFICATIONS 0.

(** The world after a GET /events request was served. *)
Definition opened (query_clientId : option string) (w : World) : World :=
  let res := length (conns w) in
  let clientId := assigned_id query_clientId (now w) in
  let m := JsMap.set (clients w) clientId res in
  {| DEMO_MODE := DEMO_MODE w; topic := topic w; subscription := subscription w;
     now := now w;
     clients := m;
     conns := conns w ++ [{| conn_status := Writable;
                             conn_onclose := Some clientId |}];
     timers := timers w ++ (if DEMO_MODE w then demo_timers res (now w) else []);
     trace := trace w
              ++ [EWrite SiteAck res
                         (Connected clientId (subscription w) (DEMO_MODE w))
                         Delivered;
                  ELog (LogClientConnected clientId (JsMap.size m))] |}.

Definition nonwrite (e : Effect) : Prop :=
  match e with
  | EWrite _ _ _ _ => False
  | _ => True
  end.

(** The world after the [k]-th timer [tm] has run. *)
Definition fired (k : nat) (tm : Timer) (w : World) : World :=
  emit (EWrite (fst (task_write (task tm) (now w))) (task_res (task tm))
               (snd (task_write (task tm) (now w)))
               (write_result (sink_status w (task_res (task tm)))))
       (with_timers (remove_nth k (timers w)) w).

(** ** Invariants of the runs *)

(** References are to streams that exist. *)
Definition Inv (w : World) : Prop :=
  JsMap.wf (clients w) /\
  (forall k res, In (k, res) (JsMap.entries (clients w)) ->
                 res < length (conns w)) /\
  (forall tm, In tm (timers w) -> task_res (task tm) < length (conns w)) /\
  (forall site res f x, In (EWrite site res f x) (trace w) ->
                        res < length (conns w)).

(** Every stream received its connection-ack first, and is registered, if at
    all, under the identifier of that ack. *)
Definition acked (w : World) : Prop :=
  forall res,
    res < length (conns w) ->
    exists clientId rest,
      received res (trace w)
      = Connected clientId (subscription w) (DEMO_MODE w) :: rest /\
      forall k, In (k, res) (JsMap.entries (clients w)) -> k = clientId.

Definition script_task (tk : Task) : Prop :=
  match tk with
  | DemoTask _ sample index => nth_error DEMO_NOTIFICATIONS index = Some sample
  | WelcomeTask _ => True
  end.

(** The script timers of every stream: those that ran and those still
    pending are, together, the entries of the script, each once. *)
Definition scripted (w : World) : Prop :=
  (forall tm, In tm (timers w) -> script_task (task tm)) /\
  (forall i res f x,
      In (EWrite (SiteScript i) res f x) (trace w) ->
      exists t sample,
        nth_error DEMO_NOTIFICATIONS i = Some sample /\
        f = Notification (demoNotification t sample i)) /\
  (forall res,
      res < length (conns w) ->
      Permutation (script_attempts res (trace w) ++ pending res (timers w))
                  (if DEMO_MODE w then seq 0 (length DEMO_NOTIFICATIONS)
                   else [])).

(** The script entry that a timer stands for, as far as stream [res] goes. *)
Definition task_index (res : nat) (tk : Task) : list nat :=
  match tk with
  | DemoTask r _ i => if (r =? res)%nat then [i] else []
  | WelcomeTask _ => []
  end.

(** ** Sample worlds *)

Definition env_local : PubSubEnv :=
  {| topic_get := Failed; topic_create := false;
     subscription_get := Failed; subscription_create := false |}.

Definition env_cloud : PubSubEnv :=
  {| topic_get := Found; topic_create := true;
     subscription_get := NotFound; subscription_create := true |}.

Definition sample_notification : NotificationData :=
  {| id := JNum 1; title := JStr "T"; message := JStr "M";
     notificationType := JStr "warning"; timestamp := ISOString 1;
     source := "direct" |}.

(** Three connections [A], [B], [C]; the stream of [B] throws on [write]. *)
Definition w_abc : World :=
  run (start false env_local 100)
      [GetEvents (Some "A"); GetEvents (Some "B"); GetEvents (Some "C");
       SinkChange 1 Throws].

(** The same with the subscription up. *)
Definition w_abc_cloud : World :=
  run (start false env_cloud 100)
      [GetEvents (Some "A"); GetEvents (Some "B"); GetEvents (Some "C");
       SinkChange 1 Throws].

(** A pull message whose payload is [{"title":"T"}]: no [message]. *)
Definition msg_no_body : PubSubMessage :=
  {| msg_id := "m1"; msg_data := Some (JObj [("title", JStr "T")]);
     msg_publishTime := 50 |}.

(** A pull message whose payload is not JSON. *)
Definition msg_garbled : PubSubMessage :=
  {| msg_id := "m2"; msg_data := None; msg_publishTime := 50 |}.

(** A push request whose payload decodes to [{"message":""}]. *)
Definition push_empty_body : JsVal :=
  JObj [("message",
         JObj [("data", JStr "eyJtZXNzYWdlIjoiIn0=");
               ("messageId", JStr "p1");
               ("publishTime", JStr "2024-01-01T00:00:00Z")])].

(** One demo-mode connection, opened at clock 100. *)
Definition w_demo : World := run (start true env_local 100) [GetEvents (Some "A")].

(** A demo-mode connection whose stream has begun to throw, at the moment its
    welcome timer is due. *)
Definition w_demo_throwing : World :=
  run (start true env_local 100)
      [GetEvents (Some "A"); SinkChange 0 Throws; Elapse 1000].

(** The envelopes that the two upstream adapters build from a payload
    without, and with an empty, [message]. *)
Definition pulled_no_body : NotificationData :=
  {| id := JStr "m1"; title := JStr "T"; message := JUndefined;
     notificationType := JStr "info"; timestamp := ISOString 50;
     source := "pubsub" |}.

Definition pushed_empty_body : NotificationData :=
  {| id := JStr "p1"; title := JStr "通知"; message := JStr "";
     notificationType := JStr "info";
     timestamp := Verbatim (JStr "2024-01-01T00:00:00Z");
     source := "pubsub-push" |}.

(** A demo-mode connection that goes away 3 s after it was opened, when the
    welcome and the first script envelope have been sent; the three timers
    left run later. *)
Definition w_demo_closed_early : World :=
  run (start true env_local 100)
      [GetEvents (Some "A"); Elapse 3000; Fire 0; Fire 0; Close 0;
       Elapse 20000; Fire 0; Fire 0; Fire 0].

(** The same connection kept open until all its timers have run. *)
Definition evs_played : list Event :=
  [GetEvents (Some "A"); Elapse 18000; Fire 0; Fire 0; Fire 0; Fire 0; Fire 0].

Definition w_demo_played : World := run (start true env_local 100) evs_played.

(** ** More of the HTTP surface *)

(** GET /clients: [Array.from(clients.keys())] and its length. *)
Definition get_clients (w : World) : HttpResult :=
  let clientList := JsMap.keys (clients w) in
  RespJson 200
    (JObj [("clients", JArr (map JStr clientList));
           ("count", JNum (Z.of_nat (length clientList)))]).

(** The [topic.publishMessage] calls, in order. *)
Fixpoint publishes (tr : list Effect) : list PublishData :=
  match tr with
  | [] => []
  | EPublish d :: tr' => d :: publishes tr'
  | _ :: tr' => publishes tr'
  end.

(** The [write] calls made by timer callbacks, in order. *)
Fixpoint timer_writes (tr : list Effect) : list (Site * nat * Frame) :=
  match tr with
  | [] => []
  | EWrite SiteWelcome r f _ :: tr' => (SiteWelcome, r, f) :: timer_writes tr'
  | EWrite (SiteScript i) r f _ :: tr' => (SiteScript i, r, f) :: timer_writes tr'
  | _ :: tr' => timer_writes tr'
  end.

(** Did the push payload decode to a value whose properties can be read. *)
Definition readable (decoded : option JsVal) : bool :=
  match decoded with
  | Some JNull | Some JUndefined | None => false
  | Some _ => true
  end.

(** The envelope POST /notify broadcasts when no topic is set. *)
Definition direct_notification (body : JsVal) (t : N) : NotificationData :=
  {| id := JNum (Z.of_N t);
     title := js_or (match prop body "title" with Some v => v | None => JUndefined end)
                    (JStr "通知");
     message := match prop body "message" with Some v => v | None => JUndefined end;
     notificationType :=
       match prop body "type" with
       | Some JUndefined | None => JStr "info"
       | Some v => v
       end;
     timestamp := ISOString t;
     source := "direct" |}.

(** What POST /notify hands to [topic.publishMessage]. *)
Definition direct_payload (body : JsVal) (t : N) : PublishData :=
  {| pub_title := title (direct_notification body t);
     pub_message := message (direct_notification body t);
     pub_type := notificationType (direct_notification body t);
     pub_timestamp := ISOString t |}.

(** A request body with a usable [message], and the world it meets. *)
Definition body_hello : JsVal :=
  JObj [("title", JStr "T"); ("message", JStr "hello")].

(** The sample world with a topic but no subscription: the topic was found,
    the subscription could be neither found nor created. *)
Definition env_topic_only : PubSubEnv :=
  {| topic_get := Found; topic_create := true;
     subscription_get := NotFound; subscription_create := false |}.

Definition w_topic_only : World :=
  run (start false env_topic_only 100)
      [GetEvents (Some "A"); GetEvents (Some "B")].

(** ** Further invariants of the runs *)

(** What a demo-mode server does to the outside: acks, timer writes, and the
    two log lines of the connection lifecycle. *)
Definition demo_effect (e : Effect) : Prop :=
  match e with
  | EWrite SiteBroadcast _ _ _ => False
  | EWrite _ _ _ _ => True
  | ELog (LogClientConnected _ _) | ELog (LogClientDisconnected _ _) => True
  | _ => False
  end.

(** No stream is registered under two identifiers. *)
Definition one_id (w : World) : Prop :=
  forall k1 k2 res,
    In (k1, res) (JsMap.entries (clients w)) ->
    In (k2, res) (JsMap.entries (clients w)) -> k1 = k2.

(** A registered stream has its ['close'] listener installed, for the
    identifier it is registered under. *)
Definition listening (w : World) : Prop :=
  forall k res,
    In (k, res) (JsMap.entries (clients w)) ->
    exists c, nth_error (conns w) res = Some c /\ conn_onclose c = Some k.

(** Two connections with the same identifier; the first one is still open. *)
Definition w_superseded : World :=
  run (start false env_local 100) [GetEvents (Some "A"); GetEvents (Some "A")].

(** The number of welcome writes made on stream [res]. *)
Fixpoint welcome_attempts (res : nat) (tr : list Effect) : nat :=
  match tr with
  | [] => 0
  | EWrite SiteWelcome r _ _ :: tr' =>
      if (r =? res)%nat then S (welcome_attempts res tr')
      else welcome_attempts res tr'
  | _ :: tr' => welcome_attempts res tr'
  end.

(** The number of welcome timers of stream [res] among [ts]. *)
Definition task_welcome (res : nat) (tk : Task) : nat :=
  match tk with
  | WelcomeTask r => if (r =? res)%nat then 1 else 0
  | DemoTask _ _ _ => 0
  end.

Fixpoint pending_welcome (res : nat) (ts : list Timer) : nat :=
  match ts with
  | [] => 0
  | tm :: ts' => task_welcome res (task tm) + pending_welcome res ts'
  end.

(** The welcome of every stream is pending or was attempted, once. *)
Definition welcomed (w : World) : Prop :=
  forall res,
    res < length (conns w) ->
    welcome_attempts res (trace w) + pending_welcome res (timers w)
    = if DEMO_MODE w then 1 else 0.

(** The stream [res] exists and its ['close'] listener is gone. *)
Definition closed (w : World) (res : nat) : Prop :=
  exists c, nth_error (conns w) res = Some c /\ conn_onclose c = None.

(** Three connections [A], [B], [C]; the socket of [B] was destroyed and its
    ['close'] event has not come yet, so [B] is still registered and a write
    on its stream returns without sending. *)
Definition w_abc_dropping : World :=
  run (start false env_local 100)
      [GetEvents (Some "A"); GetEvents (Some "B"); GetEvents (Some "C");
       SinkChange 1 Destroyed].

(** * Properties *)

Unset Implicit Arguments.

(** ** The map *)

Module JsMapFacts.
Section WithValues.
Variable V : Type.
Implicit Types (m pre suf : JsMap.t V) (k : string) (v : V).

Lemma entries_app pre suf :
  JsMap.entries (pre ++ suf) = JsMap.entries pre ++ JsMap.entries suf.
Proof.
  induction pre as [|[e|] pre IH]; simpl; auto.
  now rewrite IH.
Qed.

Lemma keys_app pre suf :
  JsMap.keys (pre ++ suf) = JsMap.keys pre ++ JsMap.keys suf.
Proof. unfold JsMap.keys. now rewrite entries_app, map_app. Qed.

Lemma delete_length m k : length (JsMap.delete m k) = length m.
Proof.
  induction m as [|[[k' v']|] m IH]; simpl; auto.
  destruct (k' =? k); simpl; auto.
Qed.

(** Deleting the key of a live slot empties that slot and nothing else,
    when no earlier live slot carries the key. *)
Lemma delete_here pre k v suf :
  ~ In k (JsMap.keys pre) ->
  JsMap.delete (pre ++ Some (k, v) :: suf) k = pre ++ None :: suf.
Proof.
  induction pre as [|[[k' v']|] pre IH]; simpl; intros Hk.
  - now rewrite String.eqb_refl.
  - destruct (String.eqb_spec k' k) as [->|Hne].
    + exfalso. apply Hk. now left.
    + f_equal. apply IH. intro Hin. apply Hk. now right.
  - f_equal. apply IH. exact Hk.
Qed.

Lemma get_In m k v :
  JsMap.get m k = Some v -> In (k, v) (JsMap.entries m).
Proof.
  induction m as [|[[k' v']|] m IH]; simpl; intros H; try discriminate; auto.
  destruct (String.eqb_spec k' k) as [->|Hne].
  - injection H as ->. now left.
  - right. auto.
Qed.

Lemma In_get m k v :
  JsMap.wf m -> In (k, v) (JsMap.entries m) -> JsMap.get m k = Some v.
Proof.
  unfold JsMap.wf, JsMap.keys.
  induction m as [|[[k' v']|] m IH]; simpl; intros Hwf Hin; auto.
  - contradiction.
  - inversion Hwf as [|? ? Hnotin Hnd]; subst.
    destruct Hin as [Heq|Hin].
    + injection Heq as -> ->. now rewrite String.eqb_refl.
    + destruct (String.eqb_spec k' k) as [->|Hne]; auto.
      exfalso. apply Hnotin. change k with (fst (k, v)). now apply in_map.
Qed.

Lemma get_None m k :
  JsMap.get m k = None <-> ~ In k (JsMap.keys m).
Proof.
  unfold JsMap.keys.
  induction m as [|[[k' v']|] m IH]; simpl.
  - tauto.
  - destruct (String.eqb_spec k' k) as [->|Hne].
    + split; [discriminate | intros H; exfalso; apply H; now left].
    + rewrite IH. split; intros H; [intros [?|?]; [congruence | tauto] | tauto].
  - exact IH.
Qed.
Lemma filter_all (A : Type) (f : A -> bool) (l : list A) :
  (forall x, In x l -> f x = true) -> filter f l = l.
Proof.
  induction l as [|x l IH]; simpl; intros H; auto.
  rewrite (H x) by now left. f_equal. apply IH. intros; apply H; now right.
Qed.

Lemma entries_delete m k :
  JsMap.wf m ->
  JsMap.entries (JsMap.delete m k)
  = filter (fun e => negb (fst e =? k)) (JsMap.entries m).
Proof.
  unfold JsMap.wf, JsMap.keys.
  induction m as [|[[k' v']|] m IH]; simpl; intros Hwf; auto.
  inversion Hwf as [|? ? Hnotin Hnd]; subst.
  destruct (String.eqb_spec k' k) as [->|Hne]; simpl.
  - symmetry. apply filter_all. intros [k1 v1] Hin. simpl.
    destruct (String.eqb_spec k1 k) as [->|]; auto.
    exfalso. apply Hnotin. change k with (fst (k, v1)). now apply in_map.
  - f_equal. now apply IH.
Qed.

Lemma NoDup_map_filter (A B : Type) (g : A -> B) (f : A -> bool) (l : list A) :
  NoDup (map g l) -> NoDup (map g (filter f l)).
Proof.
  induction l as [|x l IH]; simpl; intros H; auto.
  inversion H as [|? ? Hnotin Hnd]; subst.
  destruct (f x); simpl; auto.
  constructor; auto.
  intro Hin. apply Hnotin. apply in_map_iff in Hin as [y [Hy Hin]].
  apply filter_In in Hin as [Hin _]. rewrite <- Hy. now apply in_map.
Qed.

Lemma wf_delete m k : JsMap.wf m -> JsMap.wf (JsMap.delete m k).
Proof.
  intros Hwf. unfold JsMap.wf, JsMap.keys.
  rewrite entries_delete by exact Hwf. now apply NoDup_map_filter.
Qed.
Lemma NoDup_keys_functional (l : list (string * V)) k v v' :
  NoDup (map fst l) -> In (k, v) l -> In (k, v') l -> v = v'.
Proof.
  induction l as [|[k1 v1] l IH]; simpl; intros Hnd H1 H2; [contradiction|].
  inversion Hnd as [|? ? Hnotin Hnd']; subst.
  destruct H1 as [H1|H1], H2 as [H2|H2].
  - congruence.
  - injection H1 as -> ->. exfalso. apply Hnotin.
    change k with (fst (k, v')). now apply in_map.
  - injection H2 as -> ->. exfalso. apply Hnotin.
    change k with (fst (k, v)). now apply in_map.
  - now apply IH.
Qed.

Lemma filter_filter (A : Type) (f g : A -> bool) (l : list A) :
  filter f (filter g l) = filter (fun x => g x && f x) l.
Proof.
  induction l as [|x l IH]; simpl; auto.
  destruct (g x); simpl; [destruct (f x)|]; now rewrite IH.
Qed.
Lemma keys_set m k v :
  JsMap.keys (JsMap.set m k v)
  = if JsMap.has m k then JsMap.keys m else JsMap.keys m ++ [k].
Proof.
  unfold JsMap.keys, JsMap.has.
  induction m as [|[[k' v']|] m IH]; simpl; auto.
  destruct (String.eqb_spec k' k) as [->|Hne]; simpl; auto.
  rewrite IH. now destruct (JsMap.get m k).
Qed.

Lemma wf_set m k v : JsMap.wf m -> JsMap.wf (JsMap.set m k v).
Proof.
  unfold JsMap.wf. intros Hwf. rewrite keys_set.
  unfold JsMap.has. destruct (JsMap.get m k) eqn:Hget; auto.
  apply get_None in Hget.
  apply NoDup_rev in Hwf. rewrite <- (rev_involutive (_ ++ [k])).
  apply NoDup_rev. rewrite rev_app_distr. simpl. constructor; auto.
  now rewrite <- in_rev.
Qed.

Lemma In_entries_set m k v k' v' :
  In (k', v') (JsMap.entries (JsMap.set m k v)) ->
  (k' = k /\ v' = v) \/ In (k', v') (JsMap.entries m).
Proof.
  induction m as [|[[k1 v1]|] m IH]; simpl.
  - intros [H|[]]. injection H as <- <-. now left.
  - destruct (String.eqb_spec k1 k) as [->|Hne]; simpl.
    + intros [H|H]; [injection H as <- <-; now left|right; now right].
    + intros [H|H]; [right; now left|].
      destruct (IH H) as [?|?]; [now left|right; now right].
  - exact IH.
Qed.

Lemma get_set_same m k v : JsMap.get (JsMap.set m k v) k = Some v.
Proof.
  induction m as [|[[k1 v1]|] m IH]; simpl.
  - now rewrite String.eqb_refl.
  - destruct (String.eqb_spec k1 k) as [->|Hne]; simpl.
    + now rewrite String.eqb_refl.
    + destruct (String.eqb_spec k1 k); [contradiction|exact IH].
  - exact IH.
Qed.
End WithValues.
End JsMapFacts.

(** ** [broadcastToClients] *)

(** The registry after a broadcast: the entries whose [write] did not throw,
    in their old order. *)
Lemma entries_prune w es :
  forall m,
    JsMap.wf m ->
    JsMap.wf (prune w es m) /\
    JsMap.entries (prune w es m)
    = filter (fun e =>
                negb (existsb (fun e' => throwing w (snd e') && (fst e' =? fst e))
                              es))
             (JsMap.entries m).
Proof.
  induction es as [|[k' v'] es IH]; intros m Hwf.
  - simpl. split; [exact Hwf|]. symmetry. now apply JsMapFacts.filter_all.
  - change (prune w ((k', v') :: es) m)
      with (prune w es (if throwing w v' then JsMap.delete m k' else m)).
    destruct (throwing w v') eqn:Hthrow.
    + destruct (IH (JsMap.delete m k') (JsMapFacts.wf_delete _ m k' Hwf)) as [Hwf' ->].
      split; [exact Hwf'|].
      rewrite JsMapFacts.entries_delete by exact Hwf.
      rewrite JsMapFacts.filter_filter. apply filter_ext. intros [k v]. simpl.
      rewrite Hthrow, (String.eqb_sym k' k). simpl.
      now rewrite negb_orb.
    + destruct (IH m Hwf) as [Hwf' ->]. split; [exact Hwf'|].
      apply filter_ext. intros [k v]. simpl. now rewrite Hthrow.
Qed.

Lemma entries_prune_self w m :
  JsMap.wf m ->
  JsMap.entries (prune w (JsMap.entries m) m)
  = filter (fun e => negb (throwing w (snd e))) (JsMap.entries m).
Proof.
  intros Hwf. destruct (entries_prune w (JsMap.entries m) m Hwf) as [_ ->].
  apply filter_ext_in. intros [k v] Hin. f_equal. simpl.
  destruct (throwing w v) eqn:Hthrow.
  - apply existsb_exists. exists (k, v). simpl.
    now rewrite Hthrow, String.eqb_refl.
  - destruct (existsb _ _) eqn:Hex; auto.
    apply existsb_exists in Hex as [[k1 v1] [Hin1 Hb]]. simpl in Hb.
    apply andb_true_iff in Hb as [Ht Hk]. apply String.eqb_eq in Hk. subst k1.
    rewrite (JsMapFacts.NoDup_keys_functional _ _ k v1 v Hwf Hin1 Hin) in Ht.
    congruence.
Qed.


Section Broadcast.
Variable notification : NotificationData.

Lemma deliver_unfold client clientId w c :
  deliver notification client clientId (w, c) =
  if throwing w client
  then (patch (JsMap.delete (clients w) clientId)
              (trace w ++ attempt notification w (clientId, client)) w, c)
  else (patch (clients w)
              (trace w ++ attempt notification w (clientId, client)) w, S c).
Proof.
  unfold deliver, res_write, throwing, attempt, patch, with_clients, emit.
  simpl. destruct (sink_status w client); simpl; try reflexivity.
  now rewrite <- app_assoc.
Qed.

Lemma deliver_conns client clientId s :
  conns (fst (deliver notification client clientId s)) = conns (fst s).
Proof.
  destruct s as [w c]. rewrite deliver_unfold.
  now destruct (throwing w client).
Qed.

(** The walk over the live map, with the callback deleting the entry it is
    at, visits what a walk over the entries present at the start visits;
    and [length suf] steps of fuel are enough for it to end. *)
Lemma forEach_from_deliver suf :
  forall pre s fuel,
    clients (fst s) = pre ++ suf ->
    JsMap.wf (pre ++ suf) ->
    length suf <= fuel ->
    JsMap.forEach_from (fun s => clients (fst s)) (deliver notification)
                       fuel (length pre) s
    = Some (deliver_all notification (JsMap.entries suf) s).
Proof.
  induction suf as [|slot suf IH]; intros pre s fuel Hm Hwf Hfuel.
  - destruct fuel; simpl; rewrite Hm, app_nil_r;
      now rewrite (proj2 (nth_error_None pre (length pre)) (le_n _)).
  - destruct fuel as [|fuel]; [simpl in Hfuel; lia|].
    simpl JsMap.forEach_from. rewrite Hm.
    rewrite nth_error_app2, Nat.sub_diag by lia. simpl nth_error.
    assert (Hlen : forall x : option (string * nat),
               S (length pre) = length (pre ++ [x]))
      by (intros x; rewrite length_app; simpl; lia).
    simpl in Hfuel.
    destruct slot as [[k v]|].
    + assert (Hfresh : ~ In k (JsMap.keys pre)).
      { unfold JsMap.wf in Hwf. rewrite JsMapFacts.keys_app in Hwf.
        simpl in Hwf. apply NoDup_remove_2 in Hwf.
        intro Hin. apply Hwf. apply in_or_app. now left. }
      simpl JsMap.entries. unfold deliver_all. simpl fold_left.
      destruct s as [w c]. simpl in Hm. rewrite deliver_unfold.
      destruct (throwing w v).
      * rewrite (Hlen None).
        apply IH; [| |lia].
        -- simpl. rewrite Hm, JsMapFacts.delete_here by exact Hfresh.
           now rewrite <- app_assoc.
        -- unfold JsMap.wf in *. rewrite <- app_assoc.
           rewrite JsMapFacts.keys_app in *. simpl in *.
           now apply NoDup_remove_1 in Hwf.
      * rewrite (Hlen (Some (k, v))).
        apply IH; [| |lia].
        -- simpl. now rewrite Hm, <- app_assoc.
        -- now rewrite <- app_assoc.
    + rewrite (Hlen None).
      apply IH; [|now rewrite <- app_assoc|lia].
      now rewrite Hm, <- app_assoc.
Qed.
Lemma throwing_conns w w' res :
  conns w' = conns w -> throwing w' res = throwing w res.
Proof. unfold throwing, sink_status. now intros ->. Qed.

Lemma attempt_conns w w' e :
  conns w' = conns w -> attempt notification w' e = attempt notification w e.
Proof. unfold attempt, sink_status. now intros ->. Qed.

Lemma deliver_all_spec w es :
  forall w0 c,
    conns w0 = conns w ->
    deliver_all notification es (w0, c)
    = (patch (prune w es (clients w0))
             (trace w0 ++ flat_map (attempt notification w) es) w0,
       c + sent w es).
Proof.
  induction es as [|[k v] es IH]; intros w0 c Hc.
  - simpl. unfold patch, sent. simpl. rewrite app_nil_r, Nat.add_0_r.
    now destruct w0.
  - change (deliver_all notification ((k, v) :: es) (w0, c))
      with (deliver_all notification es (deliver notification v k (w0, c))).
    rewrite deliver_unfold.
    rewrite (throwing_conns w w0 v Hc), (attempt_conns w w0 (k, v) Hc).
    unfold sent, prune. simpl filter. simpl fold_left.
    destruct (throwing w v) eqn:Hthrow; simpl negb; cbv iota;
      rewrite IH by exact Hc; unfold patch, sent, prune; simpl;
      rewrite <- ?app_assoc; f_equal; lia.
Qed.

(** The walk of [broadcastToClients] ends within the fuel it is given. *)
Lemma broadcast_loop_returns w :
  JsMap.wf (clients w) ->
  broadcast_loop notification (length (clients w)) (w, 0)
  = Some (deliver_all notification (JsMap.entries (clients w)) (w, 0)).
Proof.
  intros Hwf. unfold broadcast_loop.
  exact (forEach_from_deliver (clients w) [] (w, 0) _ eq_refl Hwf (le_n _)).
Qed.

(** [broadcastToClients] in closed form. *)
Lemma broadcastToClients_spec w :
  JsMap.wf (clients w) ->
  let es := JsMap.entries (clients w) in
  broadcastToClients notification w
  = (JUndefined,
     patch (prune w es (clients w))
           (trace w ++ flat_map (attempt notification w) es
                    ++ [ELog (LogDelivered (sent w es))]) w).
Proof.
  intros Hwf es. unfold broadcastToClients.
  rewrite broadcast_loop_returns by exact Hwf.
  rewrite (deliver_all_spec w) by reflexivity. fold es.
  unfold emit, patch. simpl. now rewrite <- app_assoc.
Qed.
End Broadcast.

(** ** Reading a broadcast off the trace *)

Lemma skipn_length_app (A : Type) (l new : list A) :
  skipn (length l) (l ++ new) = new.
Proof. induction l; simpl; auto. Qed.

Lemma broadcast_writes_app tr1 tr2 :
  broadcast_writes (tr1 ++ tr2) = broadcast_writes tr1 ++ broadcast_writes tr2.
Proof.
  induction tr1 as [|e tr1 IH]; simpl; auto.
  destruct e as [[] r f x| | |]; simpl; auto. now rewrite IH.
Qed.

Lemma logged_count_last tr c :
  logged_count (tr ++ [ELog (LogDelivered c)]) = Some c.
Proof.
  induction tr as [|e tr IH]; simpl; auto.
  destruct e as [|[]| |]; auto. now rewrite IH.
Qed.

Section BroadcastTrace.
Variable notification : NotificationData.
Variable w : World.
Hypothesis Hwf : JsMap.wf (clients w).

Let es := JsMap.entries (clients w).
Let w' := snd (broadcastToClients notification w).

Lemma broadcast_clients :
  JsMap.wf (clients w') /\
  JsMap.entries (clients w')
  = filter (fun e => negb (throwing w (snd e))) es.
Proof.
  unfold w'. rewrite broadcastToClients_spec by exact Hwf. simpl.
  split.
  - now apply entries_prune.
  - now apply entries_prune_self.
Qed.

Lemma broadcast_effects :
  effects_since w w'
  = flat_map (attempt notification w) es ++ [ELog (LogDelivered (sent w es))].
Proof.
  unfold w', effects_since. rewrite broadcastToClients_spec by exact Hwf.
  simpl. apply skipn_length_app.
Qed.

Lemma broadcast_trace :
  trace w' = trace w ++ effects_since w w'.
Proof.
  rewrite broadcast_effects. unfold w'.
  now rewrite broadcastToClients_spec by exact Hwf.
Qed.

Lemma broadcast_frame :
  DEMO_MODE w' = DEMO_MODE w /\ topic w' = topic w /\
  subscription w' = subscription w /\ now w' = now w /\
  conns w' = conns w /\ timers w' = timers w.
Proof.
  unfold w'. rewrite broadcastToClients_spec by exact Hwf. simpl. tauto.
Qed.

Lemma broadcast_writes_attempts (l : list (string * nat)) :
  broadcast_writes (flat_map (attempt notification w) l)
  = map (fun e => (snd e, Notification notification,
                   write_result (sink_status w (snd e)))) l.
Proof.
  induction l as [|[k r] l IH]; simpl; auto.
  rewrite <- IH. now destruct (write_result (sink_status w r)).
Qed.

Lemma broadcast_writes_since :
  broadcast_writes (effects_since w w')
  = map (fun e => (snd e, Notification notification,
                   write_result (sink_status w (snd e)))) es.
Proof.
  rewrite broadcast_effects, broadcast_writes_app, broadcast_writes_attempts.
  simpl. apply app_nil_r.
Qed.

Lemma successes_since : successes (effects_since w w') = sent w es.
Proof.
  unfold successes, sent. rewrite broadcast_writes_since.
  induction es as [|[k r] l IH]; simpl; auto.
  unfold throwing at 1. destruct (sink_status w r); simpl; now rewrite IH.
Qed.
End BroadcastTrace.

(** ** Fault isolation, the count, and the set of visited connections *)

Lemma sent_one_failing w (es : list (string * nat)) e :
  filter (fun e => throwing w (snd e)) es = [e] ->
  sent w es = length es - 1.
Proof.
  unfold sent. intros H.
  assert (Hlen : length (filter (fun e => throwing w (snd e)) es)
                 + length (filter (fun e => negb (throwing w (snd e))) es)
                 = length es).
  { clear H. induction es as [|x l IH]; simpl; auto.
    destruct (throwing w (snd x)); simpl; lia. }
  rewrite H in Hlen. simpl in Hlen. lia.
Qed.

(** A registered connection whose stream throws is not in the registry when
    the broadcast returns. *)
Lemma broadcast_removes_throwing notification w :
  JsMap.wf (clients w) ->
  forall clientId res,
    In (clientId, res) (JsMap.entries (clients w)) -> throwing w res = true ->
    JsMap.has (clients (snd (broadcastToClients notification w))) clientId
    = false.
Proof.
  intros Hwf k r Hin Hthrow.
  destruct (broadcast_clients notification w Hwf) as [_ Hent].
  unfold JsMap.has.
  destruct (JsMap.get _ k) as [r'|] eqn:Hget; auto.
  apply JsMapFacts.get_In in Hget. rewrite Hent in Hget.
  apply filter_In in Hget as [Hin' Hok]. simpl in Hok.
  rewrite (JsMapFacts.NoDup_keys_functional _ _ k r' r Hwf Hin' Hin) in Hok.
  rewrite Hthrow in Hok. discriminate.
Qed.

(** C1 (amended).  A broadcast on any registry and for any envelope: every
    registered connection whose stream throws on [write] is gone from the
    registry when the broadcast returns; every other registered connection
    stays registered and the envelope was written to its stream (a write that
    returns without sending, as on a destroyed stream, is no failure to the
    code); and when exactly one registered stream throws, the writes that
    returned number one less than the registered connections. *)
Theorem broadcast_fault_isolation notification w :
  JsMap.wf (clients w) ->
  let es := JsMap.entries (clients w) in
  let w' := snd (broadcastToClients notification w) in
  (forall clientId res,
      In (clientId, res) es -> throwing w res = true ->
      JsMap.has (clients w') clientId = false) /\
  (forall clientId res,
      In (clientId, res) es -> throwing w res = false ->
      JsMap.get (clients w') clientId = Some res /\
      In (EWrite SiteBroadcast res (Notification notification)
                 (write_result (sink_status w res)))
         (effects_since w w')) /\
  (forall clientId res,
      filter (fun e => throwing w (snd e)) es = [(clientId, res)] ->
      successes (effects_since w w') = JsMap.size (clients w) - 1 /\
      JsMap.has (clients w') clientId = false).
Proof.
  intros Hwf es w'.
  destruct (broadcast_clients notification w Hwf) as [Hwf' Hent].
  fold w' in Hwf', Hent. fold es in Hent.
  pose proof (broadcast_removes_throwing notification w Hwf) as Hgone.
  fold es w' in Hgone.
  split; [exact Hgone|]. split.
  - intros k r Hin Hok. split.
    + apply JsMapFacts.In_get; [exact Hwf'|]. rewrite Hent.
      apply filter_In. split; [exact Hin|]. simpl. now rewrite Hok.
    + unfold w'. rewrite broadcast_effects by exact Hwf. fold es.
      apply in_or_app. left. apply in_flat_map. exists (k, r).
      split; [exact Hin|]. now left.
  - intros k r Hone. split.
    + unfold w'. rewrite successes_since by exact Hwf. fold es.
      unfold JsMap.size. fold es. now apply sent_one_failing with (e := (k, r)).
    + assert (Hin : In (k, r) (filter (fun e => throwing w (snd e)) es))
        by (rewrite Hone; now left).
      apply filter_In in Hin as [Hin Hthrow]. now apply Hgone with (res := r).
Qed.

(** C2 (amended).  [broadcastToClients] has no return value.  The count it
    keeps, and prints when the walk is over, is the number of streams whose
    [write] returned during the call. *)
Theorem broadcast_logs_delivery_count notification w :
  JsMap.wf (clients w) ->
  let w' := snd (broadcastToClients notification w) in
  fst (broadcastToClients notification w) = JUndefined /\
  logged_count (effects_since w w') = Some (successes (effects_since w w')).
Proof.
  intros Hwf w'. split.
  - now rewrite broadcastToClients_spec by exact Hwf.
  - unfold w'. rewrite successes_since by exact Hwf.
    rewrite broadcast_effects by exact Hwf. apply logged_count_last.
Qed.

(** C3.  A broadcast calls [write] once for each connection that is in the
    registry when it is called, in the order of the registry, and for no
    other; the order and the number of the calls do not depend on which of
    the streams throw and are taken out of the registry on the way. *)
Theorem broadcast_visits_snapshot notification w :
  JsMap.wf (clients w) ->
  let w' := snd (broadcastToClients notification w) in
  map (fun x => fst (fst x)) (broadcast_writes (effects_since w w'))
  = map snd (JsMap.entries (clients w)) /\
  length (broadcast_writes (effects_since w w')) = JsMap.size (clients w) /\
  NoDup (JsMap.keys (clients w)).
Proof.
  intros Hwf w'. unfold w'. rewrite broadcast_writes_since by exact Hwf.
  rewrite map_map, length_map. simpl. auto.
Qed.

(** ** The subscription listener *)

Lemma effects_since_app w w' new :
  trace w' = trace w ++ new -> effects_since w w' = new.
Proof. unfold effects_since. intros ->. apply skipn_length_app. Qed.

Lemma acks_app tr1 tr2 : acks (tr1 ++ tr2) = acks tr1 ++ acks tr2.
Proof.
  induction tr1 as [|e tr1 IH]; simpl; auto.
  destruct e; simpl; auto. now rewrite IH.
Qed.

Lemma broadcasts_app tr1 tr2 :
  broadcasts (tr1 ++ tr2) = broadcasts tr1 + broadcasts tr2.
Proof.
  induction tr1 as [|e tr1 IH]; simpl; auto.
  destruct e as [|[]| |]; simpl; auto.
Qed.

Lemma acks_attempts notification w es :
  acks (flat_map (attempt notification w) es) = [] /\
  broadcasts (flat_map (attempt notification w) es) = 0.
Proof.
  induction es as [|[k r] es [IH1 IH2]]; simpl; auto.
  destruct (write_result (sink_status w r)); simpl; auto.
Qed.

Lemma handlePubSubMessage_processable m w data :
  msg_data m = Some data -> processable m = true ->
  handlePubSubMessage m w
  = emit (EAck (msg_id m))
         (snd (broadcastToClients (pulled_notification m data)
                                  (emit (ELog (LogPubSubReceived data)) w))).
Proof.
  unfold processable, handlePubSubMessage. intros ->.
  destruct data; intros H; try discriminate; reflexivity.
Qed.

Lemma handlePubSubMessage_failed m w :
  processable m = false ->
  exists pre,
    handlePubSubMessage m w
    = patch (clients w)
            (trace w ++ (pre ++ [ELog LogProcessingError]) ++ [EAck (msg_id m)]) w
    /\ acks pre = [] /\ broadcasts pre = 0 /\ broadcast_writes pre = [].
Proof.
  unfold processable, handlePubSubMessage, emit, patch.
  destruct (msg_data m) as [data|]; simpl.
  - destruct data; intros H; try discriminate; simpl;
      (eexists [_]; rewrite <- !app_assoc; simpl; split; [reflexivity|auto]).
  - intros _. exists []. rewrite <- !app_assoc. simpl. auto.
Qed.

(** C5.  Whatever message the pull subscription hands over, the listener
    acknowledges it, once, as the last thing it does.  When the payload parsed
    to a value whose properties can be read, one broadcast of the envelope
    built from it (source [pubsub]) to every registered connection has
    happened before the acknowledgement; otherwise nothing was broadcast and
    the registry is as it was. *)
Theorem pull_always_acknowledges m w :
  JsMap.wf (clients w) ->
  let w' := handlePubSubMessage m w in
  exists pre,
    trace w' = trace w ++ pre ++ [EAck (msg_id m)] /\
    acks pre = [] /\
    if processable m
    then exists data,
        msg_data m = Some data /\
        source (pulled_notification m data) = "pubsub" /\
        broadcasts pre = 1 /\
        broadcast_writes pre
        = map (fun e => (snd e, Notification (pulled_notification m data),
                         write_result (sink_status w (snd e))))
              (JsMap.entries (clients w))
    else broadcasts pre = 0 /\ broadcast_writes pre = [] /\
         clients w' = clients w.
Proof.
  intros Hwf w'. destruct (processable m) eqn:Hp.
  - assert (Hd : exists data, msg_data m = Some data).
    { unfold processable in Hp. destruct (msg_data m) as [d|]; [|discriminate].
      now exists d. }
    destruct Hd as [data Hd].
    set (w1 := emit (ELog (LogPubSubReceived data)) w).
    assert (Hwf1 : JsMap.wf (clients w1)) by exact Hwf.
    pose proof (broadcast_trace (pulled_notification m data) w1 Hwf1) as Htr.
    pose proof (broadcast_effects (pulled_notification m data) w1 Hwf1) as Heff.
    exists (ELog (LogPubSubReceived data)
            :: effects_since w1 (snd (broadcastToClients
                                        (pulled_notification m data) w1))).
    unfold w'. rewrite (handlePubSubMessage_processable m w data Hd Hp).
    fold w1. split; [|split].
    + simpl. rewrite Htr. unfold w1. simpl. now rewrite <- !app_assoc.
    + rewrite Heff. simpl. rewrite acks_app.
      now rewrite (proj1 (acks_attempts _ _ _)).
    + exists data. split; [exact Hd|]. split; [reflexivity|].
      rewrite Heff. simpl. rewrite broadcasts_app, broadcast_writes_app.
      rewrite (proj2 (acks_attempts _ _ _)). split; [reflexivity|].
      rewrite broadcast_writes_attempts. simpl. now rewrite app_nil_r.
  - destruct (handlePubSubMessage_failed m w Hp) as [pre [Heq [Ha [Hb Hw]]]].
    exists (pre ++ [ELog LogProcessingError]). unfold w'. rewrite Heq. simpl.
    split; [reflexivity|]. rewrite acks_app, broadcasts_app, broadcast_writes_app.
    rewrite Ha, Hb, Hw. simpl. auto.
Qed.

(** ** POST /notify and POST /pubsub/push *)


(** C6.  In demo mode both POST endpoints answer 403 whatever the request
    holds, and the world (registry, trace and all) is as it was. *)
Theorem demo_mode_rejects_posts w body outcome decoded :
  DEMO_MODE w = true ->
  notify body outcome w
  = (RespJson 403
       (JObj [("error", JStr "デモモードでは通知の送信はできません");
              ("demoMode", JBool true)]), w) /\
  pubsub_push body decoded w
  = (RespJson 403 (JObj [("error", JStr "Demo mode"); ("demoMode", JBool true)]),
     w).
Proof.
  intros Hdemo. unfold notify, pubsub_push. now rewrite Hdemo.
Qed.

(** ** Timer callbacks *)

Lemma run_task_effects tk w :
  exists site frame,
    run_task tk w
    = emit (EWrite site (task_res tk) frame
                   (write_result (sink_status w (task_res tk)))) w /\
    (site = SiteWelcome \/ exists i, site = SiteScript i).
Proof.
  destruct tk as [res|res sample index]; simpl; unfold res_write.
  - exists SiteWelcome, (Notification (welcomeNotification (now w))).
    split; [|now left]. now destruct (write_result (sink_status w res)).
  - exists (SiteScript index),
           (Notification (demoNotification (now w) sample index)).
    split; [|right; now exists index].
    now destruct (write_result (sink_status w res)).
Qed.

(** C10.  When a timer callback (the welcome or a script envelope) runs and
    [write] throws, nothing but the attempted write happens: no log line, and
    the registry is untouched, so a connection registered for that stream
    stays registered.  The same stream, met by a broadcast, is taken out of
    the registry. *)
Theorem private_write_failure_keeps_registry w k tm clientId notification :
  JsMap.wf (clients w) ->
  nth_error (timers w) k = Some tm ->
  (due tm <= now w)%N ->
  throwing w (task_res (task tm)) = true ->
  In (clientId, task_res (task tm)) (JsMap.entries (clients w)) ->
  let w' := fire k w in
  clients w' = clients w /\
  JsMap.get (clients w') clientId = Some (task_res (task tm)) /\
  (exists site frame,
      effects_since w w' = [EWrite site (task_res (task tm)) frame Threw]) /\
  JsMap.has (clients (snd (broadcastToClients notification w))) clientId = false.
Proof.
  intros Hwf Hnth Hdue Hthrow Hin w'.
  assert (Hfire : w' = run_task (task tm) (with_timers (remove_nth k (timers w)) w)).
  { unfold w', fire. rewrite Hnth.
    now rewrite (proj2 (N.leb_le _ _) Hdue). }
  destruct (run_task_effects (task tm)
              (with_timers (remove_nth k (timers w)) w))
    as [site [frame [Heq _]]].
  rewrite <- Hfire in Heq.
  assert (Hres : write_result
                   (sink_status (with_timers (remove_nth k (timers w)) w)
                                (task_res (task tm))) = Threw).
  { unfold throwing in Hthrow. unfold sink_status in *. simpl.
    destruct (nth_error (conns w) (task_res (task tm))) as [c|]; auto.
    destruct (conn_status c); try discriminate; auto. }
  rewrite Hres in Heq.
  assert (Hc : clients w' = clients w) by now rewrite Heq.
  split; [exact Hc|]. split; [|split].
  - rewrite Hc. now apply JsMapFacts.In_get.
  - exists site, frame. apply effects_since_app. now rewrite Heq.
  - now apply (broadcast_removes_throwing notification w Hwf)
      with (res := task_res (task tm)).
Qed.

(** ** The body of the envelopes *)

(** X18.  The direct adapter only broadcasts an envelope whose [message] is
    truthy, and marks it with source [direct]. *)
Lemma notify_broadcasts_nonempty_body body outcome w r f x :
  JsMap.wf (clients w) ->
  In (r, f, x) (broadcast_writes (effects_since w (snd (notify body outcome w)))) ->
  exists d, f = Notification d /\ truthy (message d) = true /\
            source d = "direct".
Proof.
  intros Hwf. unfold notify.
  assert (Hnil : broadcast_writes (effects_since w w) = []).
  { unfold effects_since. now rewrite skipn_all. }
  destruct (DEMO_MODE w); [simpl; rewrite Hnil; contradiction|].
  destruct (prop body "title") as [t|]; [|simpl; rewrite Hnil; contradiction].
  destruct (prop body "message") as [msg|]; [|simpl; rewrite Hnil; contradiction].
  destruct (prop body "type") as [ty|]; [|simpl; rewrite Hnil; contradiction].
  destruct (truthy msg) eqn:Hmsg; simpl negb; cbv iota;
    [|simpl; rewrite Hnil; contradiction].
  destruct (topic w).
  - destruct outcome; simpl; unfold effects_since; simpl;
      rewrite <- app_assoc, skipn_length_app; simpl; contradiction.
  - simpl snd. rewrite broadcast_writes_since by exact Hwf.
    intros Hin. apply in_map_iff in Hin as [e [He _]].
    injection He as _ <- _. eexists. split; [reflexivity|]. simpl. auto.
Qed.

(** C4 (the code at the failing inputs).  The pull listener, given a payload
    without [message], and the push endpoint, given a payload whose [message]
    is the empty string, broadcast a notification envelope with no body to
    all three registered connections. *)
Theorem upstream_adapters_forward_empty_body :
  map (fun x => snd (fst x))
      (broadcast_writes
         (effects_since w_abc_cloud (handlePubSubMessage msg_no_body w_abc_cloud)))
  = [Notification pulled_no_body; Notification pulled_no_body;
     Notification pulled_no_body] /\
  truthy (message pulled_no_body) = false /\
  fst (pubsub_push push_empty_body (Some (JObj [("message", JStr "")])) w_abc)
  = RespText 200 "OK" /\
  map (fun x => snd (fst x))
      (broadcast_writes
         (effects_since w_abc
            (snd (pubsub_push push_empty_body
                              (Some (JObj [("message", JStr "")])) w_abc))))
  = [Notification pushed_empty_body; Notification pushed_empty_body;
     Notification pushed_empty_body] /\
  truthy (message pushed_empty_body) = false.
Proof. repeat split; vm_compute; reflexivity. Qed.

(** ** The theorems at sample inputs *)

Ltac solve_wf :=
  vm_compute; repeat (apply NoDup_cons; [simpl; intuition discriminate|]);
  apply NoDup_nil.

Lemma w_abc_wf : JsMap.wf (clients w_abc).
Proof. solve_wf. Defined.

Lemma broadcast_fault_isolation_witness :
  successes (effects_since w_abc
               (snd (broadcastToClients sample_notification w_abc)))
  = JsMap.size (clients w_abc) - 1 /\
  JsMap.has (clients (snd (broadcastToClients sample_notification w_abc))) "B"
  = false.
Proof.
  destruct (broadcast_fault_isolation sample_notification w_abc w_abc_wf)
    as [_ [_ H]].
  exact (H "B" 1 eq_refl).
Defined.

(** C1 as stated fails when the failing write does not throw: the stream of
    [B] takes nothing, yet [B] is still registered after the broadcast and
    the count is 3 out of 3. *)
Lemma broadcast_dropped_write_counterexample :
  JsMap.size (clients w_abc_dropping) = 3 /\
  write_result (sink_status w_abc_dropping 1) = Dropped /\
  received 1 (trace (snd (broadcastToClients sample_notification
                                             w_abc_dropping)))
  = received 1 (trace w_abc_dropping) /\
  JsMap.has
    (clients (snd (broadcastToClients sample_notification w_abc_dropping))) "B"
  = true /\
  successes (effects_since w_abc_dropping
               (snd (broadcastToClients sample_notification w_abc_dropping)))
  = 3.
Proof.
  refine (conj _ (conj _ (conj _ (conj _ _)))); vm_compute; reflexivity.
Qed.

Lemma broadcast_logs_delivery_count_witness :
  fst (broadcastToClients sample_notification w_abc) = JUndefined /\
  logged_count (effects_since w_abc
                  (snd (broadcastToClients sample_notification w_abc)))
  = Some (successes (effects_since w_abc
                       (snd (broadcastToClients sample_notification w_abc)))).
Proof.
  exact (broadcast_logs_delivery_count sample_notification w_abc w_abc_wf).
Defined.

(** C2 as stated fails: with three registered connections of which two take
    the write, the call returns [undefined], not 2. *)
Lemma broadcast_return_value_counterexample :
  successes (effects_since w_abc
               (snd (broadcastToClients sample_notification w_abc))) = 2 /\
  fst (broadcastToClients sample_notification w_abc) = JUndefined /\
  fst (broadcastToClients sample_notification w_abc)
  <> JNum (Z.of_nat
             (successes (effects_since w_abc
                (snd (broadcastToClients sample_notification w_abc))))).
Proof. repeat split; vm_compute; congruence. Qed.

Lemma broadcast_visits_snapshot_witness :
  map (fun x => fst (fst x))
      (broadcast_writes
         (effects_since w_abc
            (snd (broadcastToClients sample_notification w_abc))))
  = [0; 1; 2].
Proof.
  exact (proj1 (broadcast_visits_snapshot sample_notification w_abc w_abc_wf)).
Defined.

Lemma pull_always_acknowledges_witness :
  exists pre,
    trace (handlePubSubMessage msg_garbled w_abc)
    = trace w_abc ++ pre ++ [EAck "m2"] /\ acks pre = [] /\
    broadcasts pre = 0 /\ broadcast_writes pre = [] /\
    clients (handlePubSubMessage msg_garbled w_abc) = clients w_abc.
Proof.
  exact (pull_always_acknowledges msg_garbled w_abc w_abc_wf).
Defined.



Lemma demo_mode_rejects_posts_witness :
  fst (notify (JObj [("message", JStr "hi")]) PublishFailed w_demo)
  = RespJson 403
      (JObj [("error", JStr "デモモードでは通知の送信はできません");
             ("demoMode", JBool true)]) /\
  snd (pubsub_push push_empty_body None w_demo) = w_demo.
Proof.
  destruct (demo_mode_rejects_posts w_demo (JObj [("message", JStr "hi")])
              PublishFailed None eq_refl) as [H1 _].
  destruct (demo_mode_rejects_posts w_demo push_empty_body
              PublishFailed None eq_refl) as [_ H2].
  rewrite H1, H2. split; reflexivity.
Defined.

Lemma w_demo_throwing_wf : JsMap.wf (clients w_demo_throwing).
Proof. solve_wf. Defined.

Lemma private_write_failure_keeps_registry_witness :
  clients (fire 0 w_demo_throwing) = clients w_demo_throwing /\
  JsMap.get (clients (fire 0 w_demo_throwing)) "A" = Some 0 /\
  JsMap.has
    (clients (snd (broadcastToClients sample_notification w_demo_throwing))) "A"
  = false.
Proof.
  assert (Hdue : (1100 <= now w_demo_throwing)%N) by (vm_compute; discriminate).
  destruct (private_write_failure_keeps_registry w_demo_throwing 0
              {| due := 1100; task := WelcomeTask 0 |} "A" sample_notification
              w_demo_throwing_wf eq_refl Hdue eq_refl (or_introl eq_refl))
    as [H1 [H2 [_ H3]]].
  auto.
Defined.

(** ** Steps that only broadcast *)

Lemma nth_error_update_nth (A : Type) (l : list A) :
  forall i j x,
    nth_error (update_nth i x l) j
    = if (i =? j)%nat then option_map (fun _ => x) (nth_error l j)
      else nth_error l j.
Proof.
  induction l as [|y l IH]; intros [|i] [|j] x; simpl; auto.
  now destruct (i =? j)%nat.
Qed.

Lemma length_update_nth (A : Type) (l : list A) :
  forall i x, length (update_nth i x l) = length l.
Proof. induction l as [|y l IH]; intros [|i] x; simpl; auto. Qed.

Ltac quiet_fields :=
  unfold quiet; simpl;
  refine (conj _ (conj _ (conj _ (conj _ (conj _ (conj _ (conj _ (conj _ _)))))))).

Ltac no_effects := exists []; split; [now rewrite app_nil_r|constructor].

Lemma quiet_refl w : JsMap.wf (clients w) -> quiet w w.
Proof. intros Hwf. quiet_fields; auto using incl_refl. no_effects. Qed.

Lemma quiet_emit w w1 e : nonwrite e -> quiet w w1 -> quiet w (emit e w1).
Proof.
  intros He (H1 & H2 & H3 & H4 & H5 & H6 & H7 & H8 & new & Htr & Hnew).
  quiet_fields; auto.
  exists (new ++ [e]). split.
  - now rewrite Htr, app_assoc.
  - apply Forall_app. split; [exact Hnew|]. constructor; [|constructor].
    now destruct e.
Qed.

Lemma quiet_emit_before w w2 e :
  nonwrite e -> quiet (emit e w) w2 -> quiet w w2.
Proof.
  intros He (H1 & H2 & H3 & H4 & H5 & H6 & H7 & H8 & new & Htr & Hnew).
  simpl in *. quiet_fields; auto.
  exists (e :: new). split.
  - now rewrite Htr, <- app_assoc.
  - constructor; [now destruct e|exact Hnew].
Qed.

Lemma quiet_broadcast notification w :
  JsMap.wf (clients w) -> quiet w (snd (broadcastToClients notification w)).
Proof.
  intros Hwf.
  destruct (broadcast_frame notification w Hwf) as (H1 & H2 & H3 & H4 & H5 & H6).
  destruct (broadcast_clients notification w Hwf) as [Hwf' Hent].
  quiet_fields; auto.
  - now rewrite H5.
  - rewrite Hent. intros e He. now apply filter_In in He.
  - intros res. unfold sink_status. now rewrite H5.
  - exists (effects_since w (snd (broadcastToClients notification w))).
    split; [now apply broadcast_trace|].
    rewrite broadcast_effects by exact Hwf.
    apply Forall_app. split; [|constructor; [exact I|constructor]].
    apply Forall_forall. intros e He.
    apply in_flat_map in He as [[k r] [Hin He]].
    unfold attempt in He. simpl in He.
    destruct He as [<-|He].
    + simpl. split; [reflexivity|]. split; [now exists k|reflexivity].
    + destruct (write_result (sink_status w r)); simpl in He;
        try contradiction.
      destruct He as [<-|[]]. exact I.
Qed.

Ltac quiet_logs :=
  simpl; repeat (apply quiet_emit; [exact I|]); now apply quiet_refl.

Lemma notify_quiet body outcome w :
  JsMap.wf (clients w) -> quiet w (snd (notify body outcome w)).
Proof.
  intros Hwf. unfold notify.
  destruct (DEMO_MODE w); [quiet_logs|].
  destruct (prop body "title"); [|quiet_logs].
  destruct (prop body "message") as [msg|]; [|quiet_logs].
  destruct (prop body "type"); [|quiet_logs].
  destruct (negb (truthy msg)); [quiet_logs|].
  destruct (topic w).
  - destruct outcome; quiet_logs.
  - simpl. now apply quiet_broadcast.
Qed.

Lemma pubsub_push_quiet body decoded w :
  JsMap.wf (clients w) -> quiet w (snd (pubsub_push body decoded w)).
Proof.
  intros Hwf. unfold pubsub_push, push_failed.
  destruct (DEMO_MODE w); [quiet_logs|].
  destruct (prop body "message") as [pm|]; [|quiet_logs].
  destruct (negb (truthy pm)); [quiet_logs|].
  destruct decoded as [data|]; [|quiet_logs].
  destruct (prop pm "messageId"), (prop data "title"), (prop data "message"),
    (prop data "type"), (prop pm "publishTime"); try quiet_logs.
  simpl.
  apply quiet_emit_before with (e := ELog (LogPushReceived data)); [exact I|].
  now apply quiet_broadcast.
Qed.

Lemma handlePubSubMessage_quiet m w :
  JsMap.wf (clients w) -> quiet w (handlePubSubMessage m w).
Proof.
  intros Hwf. unfold handlePubSubMessage.
  destruct (msg_data m) as [data|]; [|quiet_logs].
  destruct (prop data "title"), (prop data "message"), (prop data "type");
    try quiet_logs.
  apply quiet_emit; [exact I|].
  apply quiet_emit_before with (e := ELog (LogPubSubReceived data)); [exact I|].
  now apply quiet_broadcast.
Qed.

Lemma close_quiet res w : JsMap.wf (clients w) -> quiet w (close res w).
Proof.
  intros Hwf. unfold close.
  destruct (nth_error (conns w) res) as [c|] eqn:Hc; [|now apply quiet_refl].
  assert (Hst : forall r, sink_status w r = Destroyed ->
                     sink_status
                       (with_conns
                          (update_nth res {| conn_status := Destroyed;
                                             conn_onclose := None |} (conns w))
                          w) r = Destroyed).
  { intros r. unfold sink_status. simpl. rewrite nth_error_update_nth.
    destruct (res =? r)%nat; auto. now destruct (nth_error (conns w) r). }
  destruct (conn_onclose c) as [clientId|].
  - unfold close_listener.
    quiet_fields; auto using length_update_nth.
    + now apply JsMapFacts.wf_delete.
    + rewrite JsMapFacts.entries_delete by exact Hwf.
      intros e He. now apply filter_In in He.
    + exists [ELog (LogClientDisconnected clientId
                      (JsMap.size (JsMap.delete (clients w) clientId)))].
      split; [reflexivity|]. constructor; [exact I|constructor].
  - quiet_fields; auto using length_update_nth, incl_refl. no_effects.
Qed.

Lemma sink_change_quiet res st w :
  JsMap.wf (clients w) -> quiet w (sink_change res st w).
Proof.
  intros Hwf. unfold sink_change.
  destruct (nth_error (conns w) res) as [c|] eqn:Hc; [|now apply quiet_refl].
  assert (Hq : conn_status c <> Destroyed ->
               quiet w (with_conns
                          (update_nth res {| conn_status := st;
                                             conn_onclose := conn_onclose c |}
                                      (conns w)) w)).
  { intros Hnd. quiet_fields; auto using length_update_nth, incl_refl.
    - intros r. unfold sink_status. simpl. rewrite nth_error_update_nth.
      destruct (Nat.eqb_spec res r) as [<-|]; auto.
      rewrite Hc. simpl. intros Hd. contradiction.
    - no_effects. }
  destruct (conn_status c) eqn:Hs; [apply Hq|apply Hq|now apply quiet_refl];
    discriminate.
Qed.

(** ** GET /events and the timers, step by step *)

Lemma update_nth_last (A : Type) (l : list A) x y :
  update_nth (length l) y (l ++ [x]) = l ++ [y].
Proof. induction l as [|z l IH]; simpl; auto. now rewrite IH. Qed.

Lemma schedule_samples res samples :
  forall index w,
    Array_forEach
      (fun sample index w =>
         setTimeout (DemoTask res sample index)
                    (3000 + N.of_nat index * 5000) w)
      samples index w
    = with_timers (timers w ++ script_timers res (now w) samples index) w.
Proof.
  induction samples as [|s samples IH]; intros index w; simpl.
  - rewrite app_nil_r. now destruct w.
  - rewrite IH. unfold setTimeout, with_timers. simpl.
    now rewrite <- app_assoc.
Qed.

Local Opaque DEMO_NOTIFICATIONS.

(** What serving a GET /events request comes to. *)
Lemma step_get_events q w : step w (GetEvents q) = opened q w.
Proof.
  unfold step, events, res_write.
  assert (Hst : sink_status
                  (with_conns
                     (conns w ++ [{| conn_status := Writable;
                                     conn_onclose := None |}]) w)
                  (length (conns w)) = Writable).
  { unfold sink_status. simpl.
    now rewrite nth_error_app2, Nat.sub_diag by lia. }
  rewrite Hst. simpl write_result. cbv iota. cbv zeta.
  fold (assigned_id q (now w)).
  unfold on_close, sendDemoNotificationsToClient, opened, demo_timers.
  destruct (DEMO_MODE w) eqn:Hdemo; simpl; rewrite ?Hdemo; simpl.
  - rewrite schedule_samples. unfold sink_status. simpl.
    rewrite nth_error_app2, Nat.sub_diag by lia. simpl.
    rewrite update_nth_last. unfold with_conns. simpl.
    rewrite Hdemo.
    f_equal; try reflexivity; rewrite <- ?app_assoc; reflexivity.
  - unfold sink_status. simpl.
    rewrite nth_error_app2, Nat.sub_diag by lia. simpl.
    rewrite update_nth_last. unfold with_conns. simpl.
    rewrite Hdemo.
    f_equal; try reflexivity; rewrite <- ?app_assoc, ?app_nil_r; reflexivity.
Qed.

Local Transparent DEMO_NOTIFICATIONS.

Lemma step_fire k w :
  fire k w = w \/
  exists tm, nth_error (timers w) k = Some tm /\ (due tm <= now w)%N /\
             fire k w = fired k tm w.
Proof.
  unfold fire. destruct (nth_error (timers w) k) as [tm|]; [|now left].
  destruct (N.leb_spec (due tm) (now w)) as [Hdue|]; [|now left].
  right. exists tm. split; [reflexivity|]. split; [exact Hdue|].
  unfold fired, run_task, res_write.
  destruct (task tm) as [res|res sample index]; simpl;
    now destruct (write_result _).
Qed.

(** Every step is a quiet one, the opening of a connection, or the run of a
    timer. *)
Lemma step_cases w ev :
  JsMap.wf (clients w) ->
  quiet w (step w ev) \/
  (exists q, step w ev = opened q w) \/
  (exists k tm, nth_error (timers w) k = Some tm /\ (due tm <= now w)%N /\
                step w ev = fired k tm w).
Proof.
  intros Hwf. destruct ev as [q|res|body outcome|body decoded|m|ms|k|res st].
  - right. left. exists q. apply step_get_events.
  - left. now apply close_quiet.
  - left. now apply notify_quiet.
  - left. now apply pubsub_push_quiet.
  - left. simpl. destruct (subscription w);
      [now apply handlePubSubMessage_quiet|now apply quiet_refl].
  - left. simpl. quiet_fields; auto using incl_refl. no_effects.
  - simpl. destruct (step_fire k w) as [->|[tm H]].
    + left. now apply quiet_refl.
    + right. right. now exists k, tm.
  - left. now apply sink_change_quiet.
Qed.

Lemma In_remove_nth (A : Type) (l : list A) :
  forall k x, In x (remove_nth k l) -> In x l.
Proof.
  induction l as [|y l IH]; intros [|k] x; simpl; auto.
  intros [->|H]; [now left|right; eauto].
Qed.

Lemma script_timers_res res t samples :
  forall index tm,
    In tm (script_timers res t samples index) ->
    exists sample i,
      task tm = DemoTask res sample i /\
      nth_error samples (i - index) = Some sample /\ index <= i.
Proof.
  induction samples as [|s samples IH]; intros index tm; simpl; [contradiction|].
  intros [<-|H].
  - exists s, index. simpl. rewrite Nat.sub_diag. auto.
  - destruct (IH _ _ H) as (sample & i & Ht & Hn & Hle).
    exists sample, i. split; [exact Ht|]. split; [|lia].
    replace (i - index) with (S (i - S index)) by lia. exact Hn.
Qed.

Lemma demo_timers_res res t tm :
  In tm (demo_timers res t) ->
  task_res (task tm) = res /\ script_task (task tm).
Proof.
  unfold demo_timers. intros [<-|H]; [simpl; auto|].
  destruct (script_timers_res _ _ _ _ _ H) as (sample & i & Ht & Hn & _).
  rewrite Ht. simpl. rewrite Nat.sub_0_r in Hn. auto.
Qed.

Lemma Inv_start demo env t0 : Inv (start demo env t0).
Proof.
  unfold start. destruct (initPubSub demo env) as [[tp sub] ret].
  unfold Inv. simpl. repeat split; try contradiction. constructor.
Qed.

Lemma Inv_step w ev : Inv w -> Inv (step w ev).
Proof.
  intros (Hwf & Hreg & Htm & Htr).
  destruct (step_cases w ev Hwf)
    as [Hq|[[q ->]|(k & tm & Hnth & Hdue & ->)]].
  - destruct Hq as (_ & _ & _ & Ht & Hlen & Hwf' & Hincl & _ & new & Hnew & Hall).
    unfold Inv. rewrite Hlen, Ht, Hnew.
    split; [exact Hwf'|]. split; [|split; [exact Htm|]].
    + intros k res Hin. apply (Hreg k). now apply Hincl.
    + intros site res f x Hin. apply in_app_or in Hin as [Hin|Hin]; [eauto|].
      rewrite Forall_forall in Hall. apply Hall in Hin.
      destruct Hin as (_ & [k Hk] & _). eauto.
  - unfold Inv, opened. simpl. rewrite length_app. simpl.
    split; [now apply JsMapFacts.wf_set|]. split; [|split].
    + intros k res Hin. apply JsMapFacts.In_entries_set in Hin as [[_ ->]|Hin];
        [lia|]. apply Hreg in Hin. lia.
    + intros tm Hin. apply in_app_or in Hin as [Hin|Hin].
      * apply Htm in Hin. lia.
      * destruct (DEMO_MODE w); [|contradiction].
        apply demo_timers_res in Hin as [-> _]. lia.
    + intros site res f x Hin. apply in_app_or in Hin as [Hin|Hin].
      * apply Htr in Hin. lia.
      * destruct Hin as [Hin|[Hin|[]]]; [|discriminate].
        injection Hin as _ <- _ _. lia.
  - unfold Inv, fired. simpl.
    split; [exact Hwf|]. split; [exact Hreg|]. split.
    + intros tm' Hin. apply Htm. now apply In_remove_nth in Hin.
    + intros site res f x Hin. apply in_app_or in Hin as [Hin|Hin]; [eauto|].
      destruct Hin as [Hin|[]]. injection Hin as _ <- _ _.
      apply Htm. now apply nth_error_In in Hnth.
Qed.

Lemma run_snoc w evs ev : run w (evs ++ [ev]) = step (run w evs) ev.
Proof. unfold run. now rewrite fold_left_app. Qed.

Lemma Inv_run w evs : Inv w -> Inv (run w evs).
Proof.
  intros H. induction evs as [|ev evs IH] using rev_ind; [exact H|].
  rewrite run_snoc. now apply Inv_step.
Qed.

Lemma Inv_reachable w : reachable w -> Inv w.
Proof.
  intros (demo & env & t0 & evs & ->). apply Inv_run, Inv_start.
Qed.

(** ** The connection-ack comes first *)

Lemma received_app res tr1 tr2 :
  received res (tr1 ++ tr2) = received res tr1 ++ received res tr2.
Proof.
  induction tr1 as [|e tr1 IH]; simpl; auto.
  destruct e as [site r f []| | |]; auto.
  destruct (r =? res)%nat; simpl; now rewrite IH.
Qed.

Lemma received_fresh res tr :
  (forall site f x, ~ In (EWrite site res f x) tr) -> received res tr = [].
Proof.
  induction tr as [|e tr IH]; simpl; intros H; auto.
  assert (IH' : received res tr = []).
  { apply IH. intros site f x Hin. apply (H site f x). now right. }
  destruct e as [site r f []| | |]; auto.
  destruct (Nat.eqb_spec r res) as [->|]; auto.
  exfalso. apply (H site f Delivered). now left.
Qed.

Lemma acked_start demo env t0 : acked (start demo env t0).
Proof.
  unfold start. destruct (initPubSub demo env) as [[tp sub] ret].
  intros res. simpl. lia.
Qed.

Lemma acked_step w ev : Inv w -> acked w -> acked (step w ev).
Proof.
  intros (Hwf & Hreg & Htm & Htr) Hack.
  destruct (step_cases w ev Hwf)
    as [Hq|[[q ->]|(k & tm & Hnth & Hdue & ->)]].
  - destruct Hq as (Hd & _ & Hs & _ & Hlen & _ & Hincl & _ & new & Hnew & _).
    intros res Hres. rewrite Hlen in Hres.
    destruct (Hack res Hres) as (cid & rest & Hrec & Hk).
    exists cid, (rest ++ received res new).
    rewrite Hnew, received_app, Hrec, Hd, Hs. split; [reflexivity|].
    intros k Hin. apply Hk. now apply Hincl.
  - intros res Hres. unfold opened in *. simpl in *.
    rewrite length_app in Hres. simpl in Hres.
    rewrite received_app. simpl.
    destruct (Nat.eqb_spec (length (conns w)) res) as [<-|Hne].
    + exists (assigned_id q (now w)), [].
      rewrite received_fresh.
      * split; [reflexivity|]. intros k Hin.
        apply JsMapFacts.In_entries_set in Hin as [[-> _]|Hin]; auto.
        apply Hreg in Hin. lia.
      * intros site f x Hin. apply Htr in Hin. lia.
    + assert (Hres' : res < length (conns w)) by lia.
      destruct (Hack res Hres') as (cid & rest & Hrec & Hk).
      exists cid, rest. rewrite Hrec, app_nil_r. split; [reflexivity|].
      intros k Hin.
      apply JsMapFacts.In_entries_set in Hin as [[_ ->]|Hin]; [lia|auto].
  - intros res Hres. unfold fired in *. simpl in *.
    destruct (Hack res Hres) as (cid & rest & Hrec & Hk).
    rewrite received_app, Hrec. simpl. eauto.
Qed.

Lemma acked_reachable w : reachable w -> acked w.
Proof.
  intros (demo & env & t0 & evs & ->).
  induction evs as [|ev evs IH] using rev_ind; [apply acked_start|].
  rewrite run_snoc. apply acked_step; [|exact IH].
  apply Inv_run, Inv_start.
Qed.

(** What GET /events does when the write of the connection-ack throws:
    the handler ends there. *)
Lemma events_ack_throws q res w :
  throwing w res = true ->
  events q res w
  = (RespUncaught,
     emit (EWrite SiteAck res
                  (Connected (assigned_id q (now w)) (subscription w)
                             (DEMO_MODE w)) Threw) w).
Proof.
  unfold throwing, events, res_write. fold (assigned_id q (now w)).
  destruct (sink_status w res); try discriminate. reflexivity.
Qed.

Local Opaque DEMO_NOTIFICATIONS.

(** What GET /events does when the write of the connection-ack returns. *)
Lemma events_ack_returns q res w :
  throwing w res = false ->
  let clientId := assigned_id q (now w) in
  fst (events q res w) = RespStream res /\
  trace (snd (events q res w))
  = trace w
    ++ [EWrite SiteAck res (Connected clientId (subscription w) (DEMO_MODE w))
               (write_result (sink_status w res));
        ELog (LogClientConnected clientId
                (JsMap.size (JsMap.set (clients w) clientId res)))] /\
  clients (snd (events q res w)) = JsMap.set (clients w) clientId res.
Proof.
  intros Hok clientId. unfold throwing in Hok.
  unfold events, res_write. fold (assigned_id q (now w)). fold clientId.
  destruct (sink_status w res); try discriminate; simpl write_result;
    cbv iota; cbv zeta;
    unfold on_close, sendDemoNotificationsToClient;
    destruct (DEMO_MODE w) eqn:Hdemo; simpl; rewrite ?Hdemo; simpl;
    rewrite ?schedule_samples; simpl; rewrite <- ?app_assoc; auto.
Qed.

Local Transparent DEMO_NOTIFICATIONS.

(** C7.  In every world the server can be in: a GET /events request is
    answered by one write, the connection-ack with the assigned identifier
    and the two feature flags, to the new stream only, made while that stream
    is not in the registry and has received nothing, and the stream is
    registered under that identifier afterwards; and the first frame that any
    stream has received is its connection-ack, carrying the identifier under
    which it is registered, if it is.  The registration comes after the
    write: in the handler, on any stream and in any world, the ack write is
    the first effect, and when that write throws the handler ends there, with
    the registry, the timers and the streams as they were; only when it
    returns is the stream put into the registry. *)
Theorem connection_ack_comes_first w :
  reachable w ->
  (forall q,
      let res := length (conns w) in
      let w' := step w (GetEvents q) in
      let clientId := assigned_id q (now w) in
      ~ registered w res /\
      received res (trace w) = [] /\
      effects_since w w'
      = [EWrite SiteAck res (Connected clientId (subscription w) (DEMO_MODE w))
                Delivered;
         ELog (LogClientConnected clientId (JsMap.size (clients w')))] /\
      JsMap.get (clients w') clientId = Some res) /\
  (forall res,
      res < length (conns w) ->
      exists clientId rest,
        received res (trace w)
        = Connected clientId (subscription w) (DEMO_MODE w) :: rest /\
        forall k, In (k, res) (JsMap.entries (clients w)) -> k = clientId) /\
  (forall q res w0,
      let clientId := assigned_id q (now w0) in
      let ack := EWrite SiteAck res
                        (Connected clientId (subscription w0) (DEMO_MODE w0))
                        (write_result (sink_status w0 res)) in
      (throwing w0 res = true ->
       events q res w0 = (RespUncaught, emit ack w0) /\
       clients (snd (events q res w0)) = clients w0 /\
       timers (snd (events q res w0)) = timers w0 /\
       conns (snd (events q res w0)) = conns w0) /\
      (throwing w0 res = false ->
       fst (events q res w0) = RespStream res /\
       trace (snd (events q res w0))
       = trace w0
         ++ [ack;
             ELog (LogClientConnected clientId
                     (JsMap.size (JsMap.set (clients w0) clientId res)))] /\
       clients (snd (events q res w0)) = JsMap.set (clients w0) clientId res)).
Proof.
  intros Hreach. split; [|split; [now apply acked_reachable|]].
  - destruct (Inv_reachable w Hreach) as (Hwf & Hreg & Htm & Htr).
    intros q res w' clientId. unfold w'. rewrite step_get_events.
    split; [|split; [|split]].
    + intros [k Hin]. apply Hreg in Hin. unfold res in Hin. lia.
    + apply received_fresh. intros site f x Hin. apply Htr in Hin.
      unfold res in Hin. lia.
    + apply effects_since_app. reflexivity.
    + unfold opened. simpl. apply JsMapFacts.get_set_same.
  - intros q res w0 clientId ack. split.
    + intros Hthrow. unfold ack, clientId.
      rewrite (events_ack_throws q res w0 Hthrow).
      unfold throwing in Hthrow.
      destruct (sink_status w0 res); try discriminate. simpl. auto.
    + intros Hok.
      exact (events_ack_returns q res w0 Hok).
Qed.

(** ** The demo script *)

Lemma script_writes_app res tr1 tr2 :
  script_writes res (tr1 ++ tr2) = script_writes res tr1 ++ script_writes res tr2.
Proof.
  induction tr1 as [|e tr1 IH]; simpl; auto.
  destruct e as [[] r f x| | |]; auto.
  destruct (r =? res)%nat; simpl; now rewrite IH.
Qed.

Lemma script_attempts_app res tr1 tr2 :
  script_attempts res (tr1 ++ tr2)
  = script_attempts res tr1 ++ script_attempts res tr2.
Proof. unfold script_attempts. now rewrite script_writes_app, map_app. Qed.

Lemma script_writes_fresh res tr :
  (forall site f x, ~ In (EWrite site res f x) tr) -> script_writes res tr = [].
Proof.
  induction tr as [|e tr IH]; simpl; intros H; auto.
  assert (IH' : script_writes res tr = []).
  { apply IH. intros site f x Hin. apply (H site f x). now right. }
  destruct e as [[] r f x| | |]; auto.
  destruct (Nat.eqb_spec r res) as [->|]; auto.
  exfalso. apply (H (SiteScript index) f x). now left.
Qed.

Lemma script_writes_broadcast w res new :
  Forall (broadcast_effect w) new -> script_writes res new = [].
Proof.
  induction 1 as [|e new He _ IH]; simpl; auto.
  destruct e as [[] r f x| | |]; auto.
  simpl in He. destruct He as [He _]. discriminate.
Qed.

Lemma pending_cons res tm ts :
  pending res (tm :: ts) = task_index res (task tm) ++ pending res ts.
Proof.
  destruct tm as [d [r|r s i]]; simpl; auto.
  now destruct (r =? res)%nat.
Qed.

Lemma pending_app res ts1 ts2 :
  pending res (ts1 ++ ts2) = pending res ts1 ++ pending res ts2.
Proof.
  induction ts1 as [|tm ts1 IH]; auto.
  rewrite <- app_comm_cons, !pending_cons, IH. apply app_assoc.
Qed.

Lemma pending_fresh res ts :
  (forall tm, In tm ts -> task_res (task tm) <> res) -> pending res ts = [].
Proof.
  induction ts as [|tm ts IH]; intros H; auto.
  rewrite pending_cons, IH by (intros; apply H; now right).
  assert (Hne : task_res (task tm) <> res) by (apply H; now left).
  destruct (task tm) as [r|r s i]; simpl in *; auto.
  destruct (Nat.eqb_spec r res); [contradiction|reflexivity].
Qed.

Lemma pending_script_timers res t samples :
  forall index,
    pending res (script_timers res t samples index)
    = seq index (length samples).
Proof.
  induction samples as [|s samples IH]; intros index; auto.
  simpl script_timers. rewrite pending_cons, IH. simpl.
  now rewrite Nat.eqb_refl.
Qed.

Lemma pending_remove_nth res ts :
  forall k tm,
    nth_error ts k = Some tm ->
    Permutation (pending res ts)
                (task_index res (task tm) ++ pending res (remove_nth k ts)).
Proof.
  induction ts as [|tm' ts IH]; intros [|k] tm Hnth; simpl in Hnth;
    try discriminate.
  - injection Hnth as ->. simpl remove_nth. now rewrite pending_cons.
  - simpl remove_nth. rewrite !pending_cons.
    rewrite (IH k tm Hnth). rewrite !app_assoc.
    apply Permutation_app_tail, Permutation_app_comm.
Qed.

Lemma script_attempts_task res tk t x :
  script_attempts res
    [EWrite (fst (task_write tk t)) (task_res tk) (snd (task_write tk t)) x]
  = task_index res tk.
Proof.
  destruct tk as [r|r s i]; simpl; auto.
  unfold script_attempts. simpl. now destruct (r =? res)%nat.
Qed.

Lemma scripted_start demo env t0 : scripted (start demo env t0).
Proof.
  unfold start. destruct (initPubSub demo env) as [[tp sub] ret].
  unfold scripted. simpl. split; [contradiction|]. split; [contradiction|].
  intros res. lia.
Qed.

Lemma scripted_step w ev : Inv w -> scripted w -> scripted (step w ev).
Proof.
  intros (Hwf & Hreg & Htm & Htr) (Htask & Hframe & Hperm).
  destruct (step_cases w ev Hwf)
    as [Hq|[[q ->]|(k & tm & Hnth & Hdue & ->)]].
  - destruct Hq as (Hd & _ & _ & Ht & Hlen & _ & _ & _ & new & Hnew & Hall).
    unfold scripted. rewrite Ht, Hlen, Hnew, Hd.
    split; [exact Htask|]. split.
    + intros i res f x Hin. apply in_app_or in Hin as [Hin|Hin]; [eauto|].
      rewrite Forall_forall in Hall. apply Hall in Hin.
      destruct Hin as [Hin _]. discriminate.
    + intros res Hres. rewrite script_attempts_app.
      unfold script_attempts at 2.
      rewrite (script_writes_broadcast w res new Hall). simpl.
      rewrite app_nil_r. now apply Hperm.
  - unfold scripted, opened. simpl. rewrite length_app. simpl.
    split; [|split].
    + intros tm Hin. apply in_app_or in Hin as [Hin|Hin]; [auto|].
      destruct (DEMO_MODE w); [|contradiction].
      now apply demo_timers_res in Hin.
    + intros i res f x Hin. apply in_app_or in Hin as [Hin|Hin]; [eauto|].
      destruct Hin as [Hin|[Hin|[]]]; discriminate.
    + intros res Hres. rewrite script_attempts_app, pending_app.
      unfold script_attempts at 2. simpl. rewrite app_nil_r.
      destruct (Nat.eq_dec res (length (conns w))) as [->|Hne].
      * unfold script_attempts. rewrite script_writes_fresh
          by (intros site f x Hin; apply Htr in Hin; lia).
        rewrite (pending_fresh (length (conns w)) (timers w))
          by (intros tm Hin; apply Htm in Hin; lia).
        cbn [map app]. destruct (DEMO_MODE w); [|constructor].
        unfold demo_timers. rewrite pending_cons. cbn [task task_index app].
        rewrite pending_script_timers. apply Permutation_refl.
      * rewrite (pending_fresh res (if DEMO_MODE w then _ else _)).
        -- rewrite app_nil_r. apply Hperm. lia.
        -- intros tm Hin. destruct (DEMO_MODE w); [|contradiction].
           apply demo_timers_res in Hin as [-> _]. lia.
  - unfold scripted, fired. simpl. split; [|split].
    + intros tm' Hin. apply Htask. now apply In_remove_nth in Hin.
    + intros i res f x Hin. apply in_app_or in Hin as [Hin|Hin]; [eauto|].
      destruct Hin as [Hin|[]].
      assert (Hs : script_task (task tm))
        by (apply Htask; now apply nth_error_In in Hnth).
      destruct (task tm) as [r|r s j]; simpl in *; [discriminate|].
      injection Hin as <- _ <- _. now exists (now w), s.
    + intros res Hres. rewrite script_attempts_app, script_attempts_task.
      rewrite <- app_assoc.
      rewrite <- (pending_remove_nth res (timers w) k tm Hnth).
      now apply Hperm.
Qed.

Lemma scripted_run w evs : Inv w -> scripted w -> scripted (run w evs).
Proof.
  intros HI H. induction evs as [|ev evs IH] using rev_ind; [exact H|].
  rewrite run_snoc. apply scripted_step; [|exact IH]. now apply Inv_run.
Qed.

(** ** Identifiers of the demo envelopes *)

Lemma dec_parse n :
  exists d, NilEmpty.uint_of_string (dec n) = Some d /\ N.of_uint d = n.
Proof.
  unfold dec. pose proof (DecimalN.Unsigned.of_to n) as Hn.
  destruct (N.to_uint n) eqn:Hd;
    try (eexists; split; [apply NilEmpty.usu|exact Hn]).
  exists (Decimal.D0 Decimal.Nil). split; [reflexivity|exact Hn].
Qed.

Lemma dec_inj a b : dec a = dec b -> a = b.
Proof.
  intros H. destruct (dec_parse a) as (da & Ha & <-).
  destruct (dec_parse b) as (db & Hb & <-).
  rewrite H in Ha. congruence.
Qed.

Lemma digits_tail c s d :
  NilEmpty.uint_of_string (String c s) = Some d ->
  c <> "_"%char /\ exists d', NilEmpty.uint_of_string s = Some d'.
Proof.
  simpl. destruct (NilEmpty.uint_of_string s) as [d'|]; [|discriminate].
  intros H. split; [|now exists d'].
  intros ->. discriminate.
Qed.

(** Two strings of digits followed by an underscore and a rest agree only
    when the digits and the rests agree. *)
Lemma split_at_underscore a :
  forall a' b b' d d',
    NilEmpty.uint_of_string a = Some d ->
    NilEmpty.uint_of_string a' = Some d' ->
    (a ++ "_" ++ b = a' ++ "_" ++ b')%string ->
    a = a' /\ b = b'.
Proof.
  induction a as [|c a IH]; intros [|c' a'] b b' d d' Ha Ha' Heq;
    simpl in Heq.
  - injection Heq as ->. auto.
  - injection Heq as <- _. apply digits_tail in Ha' as [Hc _]. now elim Hc.
  - injection Heq as -> _. apply digits_tail in Ha as [Hc _]. now elim Hc.
  - injection Heq as <- Heq.
    apply digits_tail in Ha as [_ [d1 Ha]].
    apply digits_tail in Ha' as [_ [d1' Ha']].
    destruct (IH a' b b' d1 d1' Ha Ha' Heq) as [-> ->]. auto.
Qed.

(** The identifier of a script envelope tells its index. *)
Lemma demoNotification_id_inj t s i t' s' i' :
  id (demoNotification t s i) = id (demoNotification t' s' i') -> i = i'.
Proof.
  unfold demoNotification. simpl. intros H. injection H as H.
  destruct (dec_parse t) as (d & Hd & _).
  destruct (dec_parse t') as (d' & Hd' & _).
  destruct (split_at_underscore _ _ _ _ _ _ Hd Hd' H) as [_ Hi].
  apply dec_inj in Hi. now apply Nat2N.inj.
Qed.

(** ** After the close *)

Lemma received_broadcast_destroyed w res new :
  sink_status w res = Destroyed ->
  Forall (broadcast_effect w) new -> received res new = [].
Proof.
  intros Hd. induction 1 as [|e new He _ IH]; simpl; auto.
  destruct e as [site r f x| | |]; auto.
  destruct He as (_ & _ & ->).
  destruct (Nat.eqb_spec r res) as [->|].
  - rewrite Hd. exact IH.
  - now destruct (write_result (sink_status w r)).
Qed.

Lemma step_conns_length w ev :
  JsMap.wf (clients w) -> length (conns w) <= length (conns (step w ev)).
Proof.
  intros Hwf.
  destruct (step_cases w ev Hwf)
    as [Hq|[[q ->]|(k & tm & Hnth & Hdue & ->)]].
  - destruct Hq as (_ & _ & _ & _ & -> & _). lia.
  - unfold opened. simpl. rewrite length_app. lia.
  - simpl. lia.
Qed.

Lemma step_DEMO_MODE w ev :
  JsMap.wf (clients w) -> DEMO_MODE (step w ev) = DEMO_MODE w.
Proof.
  intros Hwf.
  destruct (step_cases w ev Hwf)
    as [Hq|[[q ->]|(k & tm & Hnth & Hdue & ->)]]; auto.
  now destruct Hq.
Qed.

Lemma run_DEMO_MODE w evs : Inv w -> DEMO_MODE (run w evs) = DEMO_MODE w.
Proof.
  intros HI. induction evs as [|ev evs IH] using rev_ind; auto.
  rewrite run_snoc, step_DEMO_MODE; [exact IH|].
  now destruct (Inv_run w evs HI).
Qed.

(** A destroyed stream stays destroyed and receives nothing more, whatever
    happens next. *)
Lemma destroyed_step w ev res :
  Inv w -> res < length (conns w) -> sink_status w res = Destroyed ->
  sink_status (step w ev) res = Destroyed /\
  received res (trace (step w ev)) = received res (trace w).
Proof.
  intros (Hwf & Hreg & Htm & Htr) Hres Hd.
  destruct (step_cases w ev Hwf)
    as [Hq|[[q ->]|(k & tm & Hnth & Hdue & ->)]].
  - destruct Hq as (_ & _ & _ & _ & _ & _ & _ & Hst & new & Hnew & Hall).
    split; [now apply Hst|].
    rewrite Hnew, received_app.
    rewrite (received_broadcast_destroyed w res new Hd Hall).
    apply app_nil_r.
  - unfold opened, sink_status in *. simpl.
    rewrite nth_error_app1 by exact Hres. split; [exact Hd|].
    rewrite received_app. simpl.
    destruct (Nat.eqb_spec (length (conns w)) res); [lia|apply app_nil_r].
  - unfold fired. simpl. split; [exact Hd|].
    rewrite received_app. simpl.
    destruct (Nat.eqb_spec (task_res (task tm)) res) as [->|].
    + rewrite Hd. apply app_nil_r.
    + destruct (write_result _); apply app_nil_r.
Qed.

Lemma destroyed_run evs :
  forall w res,
    Inv w -> res < length (conns w) -> sink_status w res = Destroyed ->
    received res (trace (run w evs)) = received res (trace w).
Proof.
  induction evs as [|ev evs IH]; intros w res HI Hres Hd; auto.
  simpl. destruct (destroyed_step w ev res HI Hres Hd) as [Hd' Hrec].
  rewrite IH; auto using Inv_step.
  pose proof (step_conns_length w ev (proj1 HI)). lia.
Qed.

Lemma close_destroys w res :
  res < length (conns w) -> sink_status (close res w) res = Destroyed.
Proof.
  intros Hres. unfold close.
  destruct (nth_error (conns w) res) as [c|] eqn:Hc.
  - assert (Hd : sink_status
                   (with_conns
                      (update_nth res {| conn_status := Destroyed;
                                         conn_onclose := None |} (conns w)) w)
                   res = Destroyed).
    { unfold sink_status. simpl.
      now rewrite nth_error_update_nth, Nat.eqb_refl, Hc. }
    now destruct (conn_onclose c).
  - apply nth_error_None in Hc. lia.
Qed.

Lemma script_writes_In res tr i f x :
  In (i, f, x) (script_writes res tr) -> In (EWrite (SiteScript i) res f x) tr.
Proof.
  induction tr as [|e tr IH]; simpl; [contradiction|].
  destruct e as [[] r f' x'| | |]; auto.
  destruct (Nat.eqb_spec r res) as [->|]; auto.
  intros [H|H]; [left; congruence|auto].
Qed.

Lemma NoDup_map_determined (A B C : Type) (f : A -> B) (g : A -> C) (l : list A) :
  NoDup (map f l) ->
  (forall x y, In x l -> In y l -> g x = g y -> f x = f y) ->
  NoDup (map g l).
Proof.
  induction l as [|a l IH]; simpl; intros Hnd Hdet; [constructor|].
  inversion Hnd as [|? ? Hnotin Hnd']; subst.
  constructor.
  - intros Hin. apply in_map_iff in Hin as [y [Hy Hin]].
    apply Hnotin. rewrite (Hdet a y); auto. now apply in_map.
  - apply IH; auto.
Qed.

(** C8 (amended).  For a connection opened in demo mode, at any later moment:
    the script entries whose timer has run and those whose timer is pending
    are, together, the entries of the script, each once; the script envelopes
    that reached the peer are built from distinct entries, carry distinct
    identifiers, and number at most the length of the script, and exactly
    that when no timer is pending and every write was taken.  A close leaves
    the stream destroyed, and from then on nothing more reaches the peer:
    a timer that runs later finds its write dropped, and no timer ever
    touches the registry. *)
Theorem demo_script_delivery env t0 evs res :
  let w := run (start true env t0) evs in
  res < length (conns w) ->
  Permutation (script_attempts res (trace w) ++ pending res (timers w))
              (seq 0 (length DEMO_NOTIFICATIONS)) /\
  (forall i f, In (i, f) (script_received res (trace w)) ->
               exists t sample,
                 nth_error DEMO_NOTIFICATIONS i = Some sample /\
                 f = Notification (demoNotification t sample i)) /\
  NoDup (map fst (script_received res (trace w))) /\
  NoDup (map (fun x => frame_id (snd x)) (script_received res (trace w))) /\
  length (script_received res (trace w)) <= length DEMO_NOTIFICATIONS /\
  (pending res (timers w) = [] ->
   Forall (fun x => snd x = Delivered) (script_writes res (trace w)) ->
   length (script_received res (trace w)) = length DEMO_NOTIFICATIONS) /\
  sink_status (step w (Close res)) res = Destroyed /\
  (sink_status w res = Destroyed ->
   forall evs', received res (trace (run w evs')) = received res (trace w)) /\
  (forall k, clients (step w (Fire k)) = clients w).
Proof.
  intros w Hres.
  assert (HI : Inv w) by apply Inv_run, Inv_start.
  assert (HS : scripted w)
    by (apply scripted_run; [apply Inv_start|apply scripted_start]).
  assert (Hdemo : DEMO_MODE w = true).
  { unfold w. rewrite run_DEMO_MODE by apply Inv_start.
    unfold start. now destruct (initPubSub true env) as [[tp sub] ret]. }
  destruct HS as (_ & Hframe & Hperm).
  specialize (Hperm res Hres). rewrite Hdemo in Hperm.
  assert (Hnd : NoDup (script_attempts res (trace w))).
  { apply NoDup_app_remove_r with (l' := pending res (timers w)).
    apply (Permutation_NoDup (Permutation_sym Hperm)), seq_NoDup. }
  assert (Hrec : forall i f,
             In (i, f) (script_received res (trace w)) ->
             exists t sample,
               nth_error DEMO_NOTIFICATIONS i = Some sample /\
               f = Notification (demoNotification t sample i)).
  { intros i f Hin. unfold script_received in Hin.
    apply in_map_iff in Hin as [[[i' f'] x] [Heq Hin]].
    simpl in Heq. injection Heq as -> ->.
    apply filter_In in Hin as [Hin _].
    apply script_writes_In in Hin. eauto. }
  assert (Hnd' : NoDup (map fst (script_received res (trace w)))).
  { unfold script_received. rewrite map_map.
    now apply JsMapFacts.NoDup_map_filter. }
  assert (Hlen : length (script_attempts res (trace w))
                 <= length DEMO_NOTIFICATIONS).
  { apply Permutation_length in Hperm.
    rewrite length_app, length_seq in Hperm. lia. }
  split; [exact Hperm|]. split; [exact Hrec|]. split; [exact Hnd'|].
  split; [|split; [|split; [|split; [|split]]]].
  - apply NoDup_map_determined with (f := fst); [exact Hnd'|].
    intros [i f] [i' f'] Hin Hin' Hid. simpl in *.
    destruct (Hrec i f Hin) as (t & s & _ & ->).
    destruct (Hrec i' f' Hin') as (t' & s' & _ & ->).
    simpl in Hid. now apply demoNotification_id_inj in Hid.
  - unfold script_received. rewrite length_map.
    etransitivity; [apply filter_length_le|].
    unfold script_attempts in Hlen. now rewrite length_map in Hlen.
  - intros Hpend Hall. unfold script_received.
    rewrite JsMapFacts.filter_all.
    + apply Permutation_length in Hperm.
      rewrite Hpend, app_nil_r, length_seq in Hperm.
      unfold script_attempts in Hperm. now rewrite !length_map in *.
    + intros x Hin. rewrite Forall_forall in Hall. now rewrite (Hall x Hin).
  - simpl. now apply close_destroys.
  - intros Hd evs'. now apply destroyed_run.
  - intros k. simpl. destruct (step_fire k w) as [->|(tm & _ & _ & ->)]; auto.
Qed.

Lemma w_abc_reachable : reachable w_abc.
Proof.
  exists false, env_local, 100%N,
    [GetEvents (Some "A"); GetEvents (Some "B"); GetEvents (Some "C");
     SinkChange 1 Throws].
  reflexivity.
Defined.

Lemma connection_ack_comes_first_witness :
  effects_since w_abc (step w_abc (GetEvents (Some "D")))
  = [EWrite SiteAck 3 (Connected "D" false false) Delivered;
     ELog (LogClientConnected "D" 4)] /\
  exists clientId rest,
    received 1 (trace w_abc)
    = Connected clientId (subscription w_abc) (DEMO_MODE w_abc) :: rest /\
    forall k, In (k, 1) (JsMap.entries (clients w_abc)) -> k = clientId.
Proof.
  destruct (connection_ack_comes_first w_abc w_abc_reachable) as [H1 [H2 _]].
  split.
  - destruct (H1 (Some "D")) as (_ & _ & Heff & _).
    rewrite Heff. vm_compute. reflexivity.
  - apply (H2 1). vm_compute. lia.
Defined.

Lemma demo_script_delivery_witness :
  length (script_received 0 (trace w_demo_played))
  = length DEMO_NOTIFICATIONS /\
  sink_status (step w_demo_played (Close 0)) 0 = Destroyed.
Proof.
  assert (Hres : 0 < length (conns (run (start true env_local 100) evs_played)))
    by (vm_compute; lia).
  pose proof (demo_script_delivery env_local 100 evs_played 0 Hres) as H.
  cbv zeta in H.
  destruct H as (_ & _ & _ & _ & _ & Hfull & Hclose & _).
  unfold w_demo_played.
  split; [|exact Hclose].
  apply Hfull; [vm_compute; reflexivity|vm_compute; repeat constructor].
Defined.

(** C8 as stated fails: a connection opened in demo mode and closed after
    3 s has received one script envelope out of four when its last timer has
    run. *)
Lemma demo_script_cut_short_counterexample :
  DEMO_MODE w_demo_closed_early = true /\
  sink_status w_demo_closed_early 0 = Destroyed /\
  timers w_demo_closed_early = [] /\
  length (script_received 0 (trace w_demo_closed_early)) = 1 /\
  length (script_received 0 (trace w_demo_closed_early))
  <> length DEMO_NOTIFICATIONS.
Proof. repeat split; vm_compute; congruence. Qed.

(** * Further properties of the handlers *)

(** ** POST /notify, the two ways *)

Lemma prop_message_object body message :
  prop body "message" = Some message -> truthy message = true ->
  exists fields, body = JObj fields.
Proof.
  destruct body; simpl; intros H Ht; try discriminate;
    try (injection H as <-; discriminate).
  now exists fields.
Qed.

Lemma notify_accepted body outcome w message :
  DEMO_MODE w = false ->
  prop body "message" = Some message -> truthy message = true ->
  notify body outcome w
  = if topic w then
      let w1 := emit (EPublish (direct_payload body (now w))) w in
      match outcome with
      | Published messageId =>
          (RespJson 200
             (JObj [("success", JBool true); ("messageId", JStr messageId);
                    ("via", JStr "pubsub")]),
           emit (ELog (LogPublished messageId)) w1)
      | PublishFailed =>
          (RespJson 500 (JObj [("error", JStr "Pub/Sub送信に失敗しました")]),
           emit (ELog LogPublishError) w1)
      end
    else
      let w1 := snd (broadcastToClients (direct_notification body (now w)) w) in
      (RespJson 200
         (JObj [("success", JBool true); ("via", JStr "direct");
                ("sentCount", JNum (Z.of_nat (JsMap.size (clients w1))))]),
       w1).
Proof.
  intros Hdemo Hprop Ht.
  destruct (prop_message_object body message Hprop Ht) as [fields ->].
  simpl in Hprop. injection Hprop as Hprop.
  unfold notify, direct_payload, direct_notification.
  rewrite Hdemo. simpl prop. rewrite Hprop, Ht. simpl negb. cbv iota.
  destruct (topic w); [destruct outcome|]; cbv zeta;
    destruct (assoc "type" fields) as [[]|]; reflexivity.
Qed.

(** X1.  Without a topic, POST /notify with a usable message broadcasts once
    and answers 200 with [sentCount] equal to the number of streams whose
    write returned: the registry size it reads after the broadcast is that
    number, the throwing streams having been deleted. *)
Theorem notify_direct_reports_count body outcome w message :
  DEMO_MODE w = false -> topic w = false -> JsMap.wf (clients w) ->
  prop body "message" = Some message -> truthy message = true ->
  let w' := snd (notify body outcome w) in
  fst (notify body outcome w)
  = RespJson 200
      (JObj [("success", JBool true); ("via", JStr "direct");
             ("sentCount",
              JNum (Z.of_nat (successes (effects_since w w'))))]) /\
  broadcasts (effects_since w w') = 1 /\
  publishes (effects_since w w') = [].
Proof.
  intros Hdemo Htopic Hwf Hprop Ht w'. unfold w'.
  rewrite (notify_accepted body outcome w message Hdemo Hprop Ht), Htopic.
  cbv zeta. simpl fst. simpl snd.
  set (n := direct_notification body (now w)).
  rewrite (successes_since n w Hwf).
  destruct (broadcast_clients n w Hwf) as [_ Hent].
  unfold JsMap.size. rewrite Hent. fold (sent w (JsMap.entries (clients w))).
  split; [reflexivity|].
  rewrite (broadcast_effects n w Hwf).
  assert (Hpub : forall l, publishes (flat_map (attempt n w) l) = []).
  { induction l as [|[k r] l IH]; simpl; auto.
    now destruct (write_result (sink_status w r)). }
  rewrite broadcasts_app. rewrite (proj2 (acks_attempts n w _)).
  split; [reflexivity|].
  assert (Happ : forall a b, publishes (a ++ b) = publishes a ++ publishes b).
  { induction a as [|e a IH]; simpl; intros b; auto.
    destruct e; simpl; auto. now rewrite IH. }
  now rewrite Happ, Hpub.
Qed.

(** X2.  With a topic, POST /notify with a usable message hands the payload
    to the topic once and writes to no stream: nothing is broadcast, the
    registry is as it was, and the answer is 200 with the message id when the
    publish resolves and 500 when it rejects. *)
Theorem notify_upstream_never_broadcasts body outcome w message :
  DEMO_MODE w = false -> topic w = true ->
  prop body "message" = Some message -> truthy message = true ->
  let w' := snd (notify body outcome w) in
  publishes (effects_since w w') = [direct_payload body (now w)] /\
  pub_message (direct_payload body (now w)) = message /\
  broadcast_writes (effects_since w w') = [] /\
  broadcasts (effects_since w w') = 0 /\
  clients w' = clients w /\ conns w' = conns w /\ timers w' = timers w /\
  fst (notify body outcome w)
  = match outcome with
    | Published messageId =>
        RespJson 200
          (JObj [("success", JBool true); ("messageId", JStr messageId);
                 ("via", JStr "pubsub")])
    | PublishFailed =>
        RespJson 500 (JObj [("error", JStr "Pub/Sub送信に失敗しました")])
    end.
Proof.
  intros Hdemo Htopic Hprop Ht w'. unfold w'.
  rewrite (notify_accepted body outcome w message Hdemo Hprop Ht), Htopic.
  assert (Hm : pub_message (direct_payload body (now w)) = message)
    by (unfold direct_payload, direct_notification; simpl; now rewrite Hprop).
  destruct outcome; cbv zeta; simpl fst; simpl snd;
    (rewrite (effects_since_app w _ [EPublish (direct_payload body (now w)); _])
      by (simpl; now rewrite <- app_assoc));
    simpl; auto 10.
Qed.

(** ** POST /pubsub/push *)

Lemma push_rejects_missing_message_aux body decoded w pubsubMessage :
  DEMO_MODE w = false ->
  prop body "message" = Some pubsubMessage ->
  truthy pubsubMessage = false ->
  pubsub_push body decoded w
  = (RespJson 400 (JObj [("error", JStr "Invalid Pub/Sub message")]), w).
Proof.
  intros Hdemo Hprop Hfalsy. unfold pubsub_push.
  now rewrite Hdemo, Hprop, Hfalsy.
Qed.

(** X3.  Outside demo mode, a push request with a body that has no
    [message], or a falsy one, is answered 400 and changes nothing; a push
    request with no body at all ([req.body] is [undefined] or [null]) makes
    the read of [req.body.message] throw, and is answered 500 after the error
    was logged, again with nothing broadcast and the registry as it was. *)
Theorem push_rejects_missing_message body decoded w :
  DEMO_MODE w = false ->
  (forall pubsubMessage,
      prop body "message" = Some pubsubMessage ->
      truthy pubsubMessage = false ->
      pubsub_push body decoded w
      = (RespJson 400 (JObj [("error", JStr "Invalid Pub/Sub message")]), w)) /\
  (prop body "message" = None ->
   pubsub_push body decoded w
   = (RespCaught 500 TypeError, emit (ELog LogPushError) w)).
Proof.
  intros Hdemo. split.
  - intros pm Hprop Hfalsy. unfold pubsub_push.
    now rewrite Hdemo, Hprop, Hfalsy.
  - intros Hprop. unfold pubsub_push, push_failed. now rewrite Hdemo, Hprop.
Qed.

(** X4.  Outside demo mode, a push request whose payload does not decode, or
    decodes to [null], is answered 500 with the message of the exception
    caught: nothing is broadcast and the registry is as it was.  (The pull
    listener, on the same payload, acknowledges the message; here the status
    tells the sender to deliver again.) *)
Theorem push_failure_is_500 body decoded w pubsubMessage :
  DEMO_MODE w = false ->
  prop body "message" = Some pubsubMessage ->
  truthy pubsubMessage = true ->
  readable decoded = false ->
  let w' := snd (pubsub_push body decoded w) in
  fst (pubsub_push body decoded w)
  = RespCaught 500 (match decoded with
                    | None => DecodeError
                    | Some _ => TypeError
                    end) /\
  broadcast_writes (effects_since w w') = [] /\
  broadcasts (effects_since w w') = 0 /\
  clients w' = clients w /\ conns w' = conns w.
Proof.
  intros Hdemo Hprop Ht Hread w'. unfold w', pubsub_push, push_failed.
  rewrite Hdemo, Hprop, Ht. simpl negb. cbv iota.
  assert (Hpm : forall k, exists v, prop pubsubMessage k = Some v).
  { intros k. destruct pubsubMessage; try discriminate; simpl; eauto. }
  destruct (Hpm "messageId") as [mid ->].
  destruct decoded as [data|].
  - destruct data; try discriminate; simpl;
      (split; [reflexivity|]);
      (rewrite (effects_since_app w _ [ELog (LogPushReceived _); ELog LogPushError])
        by (simpl; now rewrite <- app_assoc));
      simpl; auto.
  - simpl. split; [reflexivity|].
    rewrite (effects_since_app w _ [ELog LogPushError]) by reflexivity.
    simpl. auto.
Qed.

Lemma js_or_truthy a d : truthy d = true -> truthy (js_or a d) = true.
Proof. unfold js_or. intros H. now destruct (truthy a) eqn:Ha. Qed.

Lemma pubsub_push_readable body decoded w pubsubMessage data :
  DEMO_MODE w = false ->
  prop body "message" = Some pubsubMessage ->
  truthy pubsubMessage = true ->
  decoded = Some data -> readable decoded = true ->
  exists messageId title message type publishTime,
    pubsub_push body decoded w
    = (RespText 200 "OK",
       snd (broadcastToClients
              {| id := messageId;
                 title := js_or title (JStr "通知");
                 message := message;
                 notificationType := js_or type (JStr "info");
                 timestamp := Verbatim publishTime;
                 source := "pubsub-push" |}
              (emit (ELog (LogPushReceived data)) w))) /\
    prop pubsubMessage "messageId" = Some messageId /\
    prop data "message" = Some message.
Proof.
  intros Hdemo Hprop Ht -> Hread. unfold pubsub_push.
  rewrite Hdemo, Hprop, Ht. simpl negb. cbv iota.
  assert (Hpm : forall k, exists v, prop pubsubMessage k = Some v).
  { intros k. destruct pubsubMessage; try discriminate; simpl; eauto. }
  assert (Hd : forall k, exists v, prop data k = Some v).
  { intros k. destruct data; try discriminate; simpl; eauto. }
  destruct (Hpm "messageId") as [mid ->], (Hpm "publishTime") as [pt ->].
  destruct (Hd "title") as [t ->], (Hd "message") as [m ->],
    (Hd "type") as [ty ->].
  exists mid, t, m, ty, pt. auto.
Qed.

(** X5.  Every envelope that the push endpoint broadcasts is a notification
    from source [pubsub-push] whose title and type are never empty (the
    defaults stand in), and whose message is the payload's [message] as it
    came. *)
Theorem push_envelope_defaults body decoded w r f x :
  JsMap.wf (clients w) ->
  In (r, f, x)
     (broadcast_writes (effects_since w (snd (pubsub_push body decoded w)))) ->
  exists d data,
    f = Notification d /\ decoded = Some data /\
    source d = "pubsub-push" /\
    truthy (title d) = true /\ truthy (notificationType d) = true /\
    prop data "message" = Some (message d).
Proof.
  intros Hwf Hin.
  assert (Hnil : broadcast_writes (effects_since w w) = [])
    by (unfold effects_since; now rewrite skipn_all).
  destruct (DEMO_MODE w) eqn:Hdemo.
  { unfold pubsub_push in Hin. rewrite Hdemo in Hin. simpl in Hin.
    rewrite Hnil in Hin. contradiction. }
  destruct (prop body "message") as [pm|] eqn:Hprop.
  2:{ unfold pubsub_push, push_failed in Hin. rewrite Hdemo, Hprop in Hin.
      simpl in Hin.
      rewrite (effects_since_app w _ [ELog LogPushError]) in Hin by reflexivity.
      contradiction. }
  destruct (truthy pm) eqn:Ht.
  2:{ rewrite (push_rejects_missing_message_aux body decoded w pm) in Hin
        by assumption.
      simpl in Hin. rewrite Hnil in Hin. contradiction. }
  destruct (readable decoded) eqn:Hread.
  - destruct decoded as [data|]; [|discriminate].
    destruct (pubsub_push_readable body (Some data) w pm data
                Hdemo Hprop Ht eq_refl Hread)
      as (mid & t & m & ty & pt & Heq & _ & Hm).
    rewrite Heq in Hin. simpl snd in Hin.
    set (n := {| id := mid; title := js_or t (JStr "通知"); message := m;
                 notificationType := js_or ty (JStr "info");
                 timestamp := Verbatim pt; source := "pubsub-push" |}) in *.
    set (w1 := emit (ELog (LogPushReceived data)) w) in *.
    assert (Hwf1 : JsMap.wf (clients w1)) by exact Hwf.
    rewrite (effects_since_app w _
               (ELog (LogPushReceived data)
                :: effects_since w1 (snd (broadcastToClients n w1)))) in Hin
      by (rewrite (broadcast_trace n w1 Hwf1); unfold w1; simpl;
          now rewrite <- app_assoc).
    simpl in Hin. rewrite (broadcast_writes_since n w1 Hwf1) in Hin.
    apply in_map_iff in Hin as [e [He _]]. injection He as _ <- _.
    exists n, data. repeat split; auto; apply js_or_truthy; reflexivity.
  - unfold pubsub_push, push_failed in Hin. rewrite Hdemo, Hprop, Ht in Hin.
    simpl negb in Hin. cbv iota in Hin.
    assert (Hpm : exists v, prop pm "messageId" = Some v)
      by (destruct pm; try discriminate; simpl; eauto).
    destruct Hpm as [mid Hmid]. rewrite Hmid in Hin.
    destruct decoded as [data|].
    + destruct data; try discriminate; simpl in Hin;
        rewrite (effects_since_app w _
                   [ELog (LogPushReceived _); ELog LogPushError]) in Hin
          by (simpl; now rewrite <- app_assoc);
        contradiction.
    + simpl in Hin.
      rewrite (effects_since_app w _ [ELog LogPushError]) in Hin by reflexivity.
      contradiction.
Qed.

(** ** The envelope of the pull listener *)

(** X6.  Every envelope that the pull listener broadcasts is a notification
    from source [pubsub] with the id and the publish time of the message; its
    title and type are never empty (the defaults stand in), and its message
    is the payload's [message] as it came. *)
Theorem pull_envelope_defaults m w r f x :
  JsMap.wf (clients w) ->
  In (r, f, x) (broadcast_writes (effects_since w (handlePubSubMessage m w))) ->
  exists d data,
    f = Notification d /\ msg_data m = Some data /\
    source d = "pubsub" /\ id d = JStr (msg_id m) /\
    timestamp d = ISOString (msg_publishTime m) /\
    truthy (title d) = true /\ truthy (notificationType d) = true /\
    prop data "message" = Some (message d).
Proof.
  intros Hwf Hin. destruct (processable m) eqn:Hp.
  - assert (Hd : exists data, msg_data m = Some data).
    { unfold processable in Hp. destruct (msg_data m) as [d|]; [|discriminate].
      now exists d. }
    destruct Hd as [data Hd].
    rewrite (handlePubSubMessage_processable m w data Hd Hp) in Hin.
    set (n := pulled_notification m data) in *.
    set (w1 := emit (ELog (LogPubSubReceived data)) w) in *.
    assert (Hwf1 : JsMap.wf (clients w1)) by exact Hwf.
    rewrite (effects_since_app w _
               (ELog (LogPubSubReceived data)
                :: effects_since w1 (snd (broadcastToClients n w1))
                ++ [EAck (msg_id m)])) in Hin
      by (simpl; rewrite (broadcast_trace n w1 Hwf1); unfold w1; simpl;
          now rewrite <- !app_assoc).
    simpl in Hin. rewrite broadcast_writes_app in Hin. simpl in Hin.
    rewrite app_nil_r, (broadcast_writes_since n w1 Hwf1) in Hin.
    apply in_map_iff in Hin as [e [He _]]. injection He as _ <- _.
    exists n, data. unfold n, pulled_notification. simpl.
    repeat split; auto; try (apply js_or_truthy; reflexivity).
    unfold processable in Hp. rewrite Hd in Hp.
    destruct data; try discriminate; reflexivity.
  - destruct (handlePubSubMessage_failed m w Hp) as (pre & Heq & _ & _ & Hw).
    rewrite Heq in Hin.
    rewrite (effects_since_app w _
               ((pre ++ [ELog LogProcessingError]) ++ [EAck (msg_id m)])) in Hin
      by reflexivity.
    rewrite !broadcast_writes_app, Hw in Hin. simpl in Hin. contradiction.
Qed.

(** ** The handlers at sample requests *)

Lemma notify_direct_reports_count_witness :
  fst (notify body_hello PublishFailed w_abc)
  = RespJson 200
      (JObj [("success", JBool true); ("via", JStr "direct");
             ("sentCount",
              JNum (Z.of_nat
                      (successes
                         (effects_since w_abc
                            (snd (notify body_hello PublishFailed w_abc))))))]).
Proof.
  assert (Hd : DEMO_MODE w_abc = false) by (vm_compute; reflexivity).
  assert (Ht : topic w_abc = false) by (vm_compute; reflexivity).
  exact (proj1 (notify_direct_reports_count body_hello PublishFailed w_abc
                  (JStr "hello") Hd Ht w_abc_wf eq_refl eq_refl)).
Defined.

Lemma w_topic_only_config :
  DEMO_MODE w_topic_only = false /\ topic w_topic_only = true.
Proof. split; vm_compute; reflexivity. Defined.

Lemma notify_upstream_never_broadcasts_witness :
  publishes (effects_since w_topic_only
               (snd (notify body_hello (Published "id-1") w_topic_only)))
  = [direct_payload body_hello (now w_topic_only)] /\
  broadcast_writes
    (effects_since w_topic_only
       (snd (notify body_hello (Published "id-1") w_topic_only))) = [].
Proof.
  destruct (notify_upstream_never_broadcasts body_hello (Published "id-1")
              w_topic_only (JStr "hello") (proj1 w_topic_only_config)
              (proj2 w_topic_only_config) eq_refl eq_refl)
    as (H1 & _ & H2 & _).
  split; [exact H1|exact H2].
Defined.

Lemma push_rejects_missing_message_witness :
  pubsub_push (JObj []) None w_abc
  = (RespJson 400 (JObj [("error", JStr "Invalid Pub/Sub message")]), w_abc) /\
  pubsub_push JUndefined None w_abc
  = (RespCaught 500 TypeError, emit (ELog LogPushError) w_abc).
Proof.
  assert (Hd : DEMO_MODE w_abc = false) by (vm_compute; reflexivity).
  destruct (push_rejects_missing_message (JObj []) None w_abc Hd) as [H1 _].
  destruct (push_rejects_missing_message JUndefined None w_abc Hd) as [_ H2].
  split; [exact (H1 JUndefined eq_refl eq_refl)|exact (H2 eq_refl)].
Defined.

Lemma push_failure_is_500_witness :
  broadcast_writes
    (effects_since w_abc (snd (pubsub_push push_empty_body None w_abc))) = [] /\
  clients (snd (pubsub_push push_empty_body None w_abc)) = clients w_abc.
Proof.
  assert (Hd : DEMO_MODE w_abc = false) by (vm_compute; reflexivity).
  destruct (push_failure_is_500 push_empty_body None w_abc
              (JObj [("data", JStr "eyJtZXNzYWdlIjoiIn0=");
                     ("messageId", JStr "p1");
                     ("publishTime", JStr "2024-01-01T00:00:00Z")])
              Hd eq_refl eq_refl eq_refl)
    as (_ & H1 & _ & H2 & _).
  split; [exact H1|exact H2].
Defined.

Lemma push_envelope_defaults_witness :
  exists d data,
    Notification pushed_empty_body = Notification d /\
    Some (JObj [("message", JStr "")]) = Some data /\
    source d = "pubsub-push" /\
    truthy (title d) = true /\ truthy (notificationType d) = true /\
    prop data "message" = Some (message d).
Proof.
  assert (Hin : In (0, Notification pushed_empty_body, Delivered)
                   (broadcast_writes
                      (effects_since w_abc
                         (snd (pubsub_push push_empty_body
                                 (Some (JObj [("message", JStr "")])) w_abc)))))
    by (vm_compute; left; reflexivity).
  exact (push_envelope_defaults push_empty_body
           (Some (JObj [("message", JStr "")])) w_abc 0
           (Notification pushed_empty_body) Delivered w_abc_wf Hin).
Defined.

Lemma w_abc_cloud_wf : JsMap.wf (clients w_abc_cloud).
Proof. solve_wf. Defined.

Lemma pull_envelope_defaults_witness :
  exists d data,
    Notification pulled_no_body = Notification d /\
    msg_data msg_no_body = Some data /\
    source d = "pubsub" /\ id d = JStr (msg_id msg_no_body) /\
    timestamp d = ISOString (msg_publishTime msg_no_body) /\
    truthy (title d) = true /\ truthy (notificationType d) = true /\
    prop data "message" = Some (message d).
Proof.
  assert (Hin : In (0, Notification pulled_no_body, Delivered)
                   (broadcast_writes
                      (effects_since w_abc_cloud
                         (handlePubSubMessage msg_no_body w_abc_cloud))))
    by (vm_compute; left; reflexivity).
  exact (pull_envelope_defaults msg_no_body w_abc_cloud 0
           (Notification pulled_no_body) Delivered w_abc_cloud_wf Hin).
Defined.

Lemma notify_broadcasts_nonempty_body_witness :
  exists d,
    Notification (direct_notification body_hello 100) = Notification d /\
    truthy (message d) = true /\ source d = "direct".
Proof.
  assert (Hin : In (0, Notification (direct_notification body_hello 100),
                    Delivered)
                   (broadcast_writes
                      (effects_since w_abc
                         (snd (notify body_hello PublishFailed w_abc)))))
    by (vm_compute; left; reflexivity).
  exact (notify_broadcasts_nonempty_body body_hello PublishFailed w_abc 0
           (Notification (direct_notification body_hello 100)) Delivered
           w_abc_wf Hin).
Defined.

(** ** What the start-up decides, for every run *)

Lemma step_config w ev :
  JsMap.wf (clients w) ->
  DEMO_MODE (step w ev) = DEMO_MODE w /\ topic (step w ev) = topic w /\
  subscription (step w ev) = subscription w.
Proof.
  intros Hwf.
  destruct (step_cases w ev Hwf)
    as [Hq|[[q ->]|(k & tm & Hnth & Hdue & ->)]]; auto.
  destruct Hq as (H1 & H2 & H3 & _). auto.
Qed.

Lemma run_config w evs :
  Inv w ->
  DEMO_MODE (run w evs) = DEMO_MODE w /\ topic (run w evs) = topic w /\
  subscription (run w evs) = subscription w.
Proof.
  intros HI. induction evs as [|ev evs (IH1 & IH2 & IH3)] using rev_ind; auto.
  rewrite run_snoc.
  destruct (step_config (run w evs) ev (proj1 (Inv_run w evs HI)))
    as (H1 & H2 & H3).
  rewrite H1, H2, H3. auto.
Qed.

Lemma start_config demo env t0 :
  DEMO_MODE (start demo env t0) = demo /\
  (subscription (start demo env t0) = true ->
   topic (start demo env t0) = true) /\
  (demo = true ->
   topic (start demo env t0) = false /\
   subscription (start demo env t0) = false).
Proof.
  unfold start, initPubSub.
  destruct demo; simpl; [repeat split; auto; discriminate|].
  destruct (acquire (topic_get env) (topic_create env));
    [destruct (acquire (subscription_get env) (subscription_create env))|];
    simpl; repeat split; auto; discriminate.
Qed.

Lemma notify_topic_no_broadcast body outcome w :
  topic w = true ->
  broadcast_writes (effects_since w (snd (notify body outcome w))) = [] /\
  clients (snd (notify body outcome w)) = clients w.
Proof.
  intros Htopic. unfold notify.
  assert (Hnil : broadcast_writes (effects_since w w) = [])
    by (unfold effects_since; now rewrite skipn_all).
  destruct (DEMO_MODE w); [simpl; auto|].
  destruct (prop body "title"); [|simpl; auto].
  destruct (prop body "message") as [msg|]; [|simpl; auto].
  destruct (prop body "type"); [|simpl; auto].
  destruct (negb (truthy msg)); [simpl; auto|].
  rewrite Htopic.
  destruct outcome; simpl; unfold effects_since; simpl;
    rewrite <- app_assoc, skipn_length_app; simpl; auto.
Qed.

(** X7.  In every world the server can be in, a subscription means a topic,
    and demo mode means neither.  So while the pull listener is on, POST
    /notify writes to no stream and leaves the registry alone, whatever the
    request: a notification is never delivered both directly and through the
    subscription. *)
Theorem subscription_implies_topic w :
  reachable w ->
  (subscription w = true -> topic w = true) /\
  (DEMO_MODE w = true -> topic w = false /\ subscription w = false) /\
  (subscription w = true ->
   forall body outcome,
     broadcast_writes (effects_since w (snd (notify body outcome w))) = [] /\
     clients (snd (notify body outcome w)) = clients w).
Proof.
  intros (demo & env & t0 & evs & ->).
  destruct (run_config (start demo env t0) evs (Inv_start demo env t0))
    as (H1 & H2 & H3).
  destruct (start_config demo env t0) as (Hd & Hsub & Hdemo).
  rewrite H1, H2, H3, Hd.
  split; [exact Hsub|]. split; [exact Hdemo|].
  intros Hs body outcome. apply notify_topic_no_broadcast.
  rewrite H2. now apply Hsub.
Qed.

(** ** Demo mode and the timers *)

Lemma close_trace res w :
  trace (close res w) = trace w \/
  exists clientId n,
    trace (close res w) = trace w ++ [ELog (LogClientDisconnected clientId n)].
Proof.
  unfold close. destruct (nth_error (conns w) res) as [c|]; [|now left].
  destruct (conn_onclose c) as [k|]; [|now left].
  right. unfold close_listener. simpl. eauto.
Qed.

Lemma sink_change_trace res st w : trace (sink_change res st w) = trace w.
Proof.
  unfold sink_change. destruct (nth_error (conns w) res) as [c|]; auto.
  now destruct (conn_status c).
Qed.

Lemma demo_step w ev :
  DEMO_MODE w = true -> subscription w = false ->
  exists new, trace (step w ev) = trace w ++ new /\ Forall demo_effect new.
Proof.
  intros Hdemo Hsub.
  destruct ev as [q|res|body outcome|body decoded|m|ms|k|res st].
  - rewrite step_get_events. unfold opened. simpl. eexists. split; [reflexivity|].
    repeat constructor.
  - simpl. destruct (close_trace res w) as [->|(k & n & ->)].
    + exists []. split; [now rewrite app_nil_r|constructor].
    + eexists. split; [reflexivity|]. repeat constructor.
  - simpl. unfold notify. rewrite Hdemo. simpl.
    exists []. split; [now rewrite app_nil_r|constructor].
  - simpl. unfold pubsub_push. rewrite Hdemo. simpl.
    exists []. split; [now rewrite app_nil_r|constructor].
  - simpl. rewrite Hsub.
    exists []. split; [now rewrite app_nil_r|constructor].
  - simpl. exists []. split; [now rewrite app_nil_r|constructor].
  - simpl. destruct (step_fire k w) as [->|(tm & _ & _ & ->)].
    + exists []. split; [now rewrite app_nil_r|constructor].
    + unfold fired. simpl. eexists. split; [reflexivity|].
      constructor; [|constructor]. now destruct (task tm).
  - simpl. rewrite sink_change_trace.
    exists []. split; [now rewrite app_nil_r|constructor].
Qed.

Lemma demo_effects_silent tr :
  Forall demo_effect tr ->
  broadcast_writes tr = [] /\ broadcasts tr = 0 /\ acks tr = [] /\
  publishes tr = [].
Proof.
  induction 1 as [|e tr He _ (IH1 & IH2 & IH3 & IH4)]; simpl; auto.
  destruct e as [[] r f x|[]| |]; simpl in He; try contradiction; auto.
Qed.

(** X8.  A server started in demo mode never broadcasts, never publishes and
    never acknowledges, whatever requests, messages and timers come: all it
    ever does to the outside is write connection-acks and timer envelopes and
    log connections and disconnections. *)
Theorem demo_mode_never_broadcasts env t0 evs :
  let w := run (start true env t0) evs in
  Forall demo_effect (trace w) /\
  broadcast_writes (trace w) = [] /\ broadcasts (trace w) = 0 /\
  acks (trace w) = [] /\ publishes (trace w) = [].
Proof.
  intros w.
  assert (H : Forall demo_effect (trace w)).
  { unfold w. induction evs as [|ev evs IH] using rev_ind.
    - unfold start. destruct (initPubSub true env) as [[tp sub] ret].
      constructor.
    - rewrite run_snoc.
      destruct (run_config (start true env t0) evs (Inv_start true env t0))
        as (H1 & _ & H3).
      destruct (start_config true env t0) as (Hd & _ & Hdemo).
      destruct (Hdemo eq_refl) as [_ Hs].
      destruct (demo_step (run (start true env t0) evs) ev)
        as (new & -> & Hnew); [congruence|congruence|].
      apply Forall_app. auto. }
  split; [exact H|]. now apply demo_effects_silent.
Qed.

Lemma timer_writes_app tr1 tr2 :
  timer_writes (tr1 ++ tr2) = timer_writes tr1 ++ timer_writes tr2.
Proof.
  induction tr1 as [|e tr1 IH]; simpl; auto.
  destruct e as [[] r f x| | |]; simpl; auto; now rewrite IH.
Qed.

Lemma timer_writes_broadcast w new :
  Forall (broadcast_effect w) new -> timer_writes new = [].
Proof.
  induction 1 as [|e new He _ IH]; simpl; auto.
  destruct e as [[] r f x| | |]; auto; simpl in He;
    destruct He as [He _]; discriminate.
Qed.

(** X9.  A server started outside demo mode never sets a timer and never
    writes a welcome or a script envelope. *)
Theorem no_demo_no_timers env t0 evs :
  let w := run (start false env t0) evs in
  timers w = [] /\ timer_writes (trace w) = [].
Proof.
  intros w. unfold w. induction evs as [|ev evs [IHt IHw]] using rev_ind.
  - unfold start. destruct (initPubSub false env) as [[tp sub] ret]. auto.
  - rewrite run_snoc.
    pose proof (Inv_run (start false env t0) evs (Inv_start false env t0)) as HI.
    destruct (run_config (start false env t0) evs (Inv_start false env t0))
      as (H1 & _ & _).
    destruct (start_config false env t0) as (Hd & _ & _).
    rewrite Hd in H1.
    destruct (step_cases (run (start false env t0) evs) ev (proj1 HI))
      as [Hq|[[q ->]|(k & tm & Hnth & Hdue & ->)]].
    + destruct Hq as (_ & _ & _ & Ht & _ & _ & _ & _ & new & -> & Hall).
      rewrite Ht, timer_writes_app, IHw.
      now rewrite (timer_writes_broadcast _ new Hall).
    + unfold opened. simpl. rewrite H1, IHt, timer_writes_app, IHw. auto.
    + rewrite IHt in Hnth. now destruct k.
Qed.

(** ** Who is registered *)

Lemma notify_conns body outcome w :
  JsMap.wf (clients w) -> conns (snd (notify body outcome w)) = conns w.
Proof.
  intros Hwf. unfold notify.
  destruct (DEMO_MODE w); auto.
  destruct (prop body "title"); auto.
  destruct (prop body "message") as [msg|]; auto.
  destruct (prop body "type"); auto.
  destruct (negb (truthy msg)); auto.
  destruct (topic w); [now destruct outcome|].
  simpl. now destruct (broadcast_frame
                         {| id := JNum (Z.of_N (now w));
                            title := js_or j (JStr "通知");
                            message := msg;
                            notificationType :=
                              match j0 with
                              | JUndefined => JStr "info"
                              | _ => j0
                              end;
                            timestamp := ISOString (now w);
                            source := "direct" |} w Hwf)
    as (_ & _ & _ & _ & H & _).
Qed.

Lemma pubsub_push_conns body decoded w :
  JsMap.wf (clients w) -> conns (snd (pubsub_push body decoded w)) = conns w.
Proof.
  intros Hwf. unfold pubsub_push, push_failed.
  destruct (DEMO_MODE w); auto.
  destruct (prop body "message") as [pm|]; auto.
  destruct (negb (truthy pm)); auto.
  destruct decoded as [data|]; auto.
  destruct (prop pm "messageId") as [mid|], (prop data "title") as [t|],
    (prop data "message") as [m|], (prop data "type") as [ty|],
    (prop pm "publishTime") as [pt|]; auto.
  simpl.
  now destruct (broadcast_frame
                  {| id := mid; title := js_or t (JStr "通知"); message := m;
                     notificationType := js_or ty (JStr "info");
                     timestamp := Verbatim pt; source := "pubsub-push" |}
                  (emit (ELog (LogPushReceived data)) w) Hwf)
    as (_ & _ & _ & _ & H & _).
Qed.

Lemma handlePubSubMessage_conns m w :
  JsMap.wf (clients w) -> conns (handlePubSubMessage m w) = conns w.
Proof.
  intros Hwf. unfold handlePubSubMessage.
  destruct (msg_data m) as [data|]; auto.
  destruct (prop data "title") as [t|], (prop data "message") as [msg|],
    (prop data "type") as [ty|]; auto.
  simpl.
  now destruct (broadcast_frame
                  {| id := JStr (msg_id m); title := js_or t (JStr "通知");
                     message := msg;
                     notificationType := js_or ty (JStr "info");
                     timestamp := ISOString (msg_publishTime m);
                     source := "pubsub" |}
                  (emit (ELog (LogPubSubReceived data)) w) Hwf)
    as (_ & _ & _ & _ & H & _).
Qed.

Lemma registry_shrinks w w' :
  conns w' = conns w ->
  incl (JsMap.entries (clients w')) (JsMap.entries (clients w)) ->
  one_id w /\ listening w -> one_id w' /\ listening w'.
Proof.
  intros Hc Hincl [H1 H2]. split.
  - intros k1 k2 res Hin1 Hin2. eapply H1; apply Hincl; eassumption.
  - intros k res Hin. rewrite Hc. apply H2. now apply Hincl.
Qed.

Lemma quiet_incl w w' :
  quiet w w' -> incl (JsMap.entries (clients w')) (JsMap.entries (clients w)).
Proof. intros (_ & _ & _ & _ & _ & _ & H & _). exact H. Qed.

Lemma registry_step w ev :
  Inv w -> one_id w /\ listening w ->
  one_id (step w ev) /\ listening (step w ev).
Proof.
  intros (Hwf & Hreg & Htm & Htr) [H1 H2].
  destruct ev as [q|res|body outcome|body decoded|m|ms|k|res st].
  - rewrite step_get_events. unfold opened, one_id, listening. simpl. split.
    + intros k1 k2 r Hin1 Hin2.
      apply JsMapFacts.In_entries_set in Hin1 as [[-> ->]|Hin1];
        apply JsMapFacts.In_entries_set in Hin2 as [[-> E]|Hin2]; auto.
      * apply Hreg in Hin2. lia.
      * apply Hreg in Hin1. lia.
      * eapply H1; eassumption.
    + intros k r Hin.
      apply JsMapFacts.In_entries_set in Hin as [[-> ->]|Hin].
      * rewrite nth_error_app2, Nat.sub_diag by lia. simpl. eauto.
      * destruct (H2 k r Hin) as (c & Hc & Ho).
        rewrite nth_error_app1 by (now apply Hreg in Hin). eauto.
  - simpl. unfold close.
    destruct (nth_error (conns w) res) as [c|] eqn:Hc; [|auto].
    assert (Hother : forall k r,
               In (k, r) (JsMap.entries (clients w)) -> r <> res ->
               exists c', nth_error
                            (update_nth res {| conn_status := Destroyed;
                                               conn_onclose := None |}
                                        (conns w)) r = Some c' /\
                          conn_onclose c' = Some k).
    { intros k r Hin Hne. rewrite nth_error_update_nth.
      destruct (Nat.eqb_spec res r); [congruence|]. now apply H2. }
    destruct (conn_onclose c) as [cid|] eqn:Ho.
    + unfold close_listener, one_id, listening. simpl.
      rewrite JsMapFacts.entries_delete by exact Hwf. split.
      * intros k1 k2 r Hin1 Hin2.
        apply filter_In in Hin1 as [Hin1 _], Hin2 as [Hin2 _].
        eapply H1; eassumption.
      * intros k r Hin. apply filter_In in Hin as [Hin Hk]. simpl in Hk.
        apply Hother; [exact Hin|]. intros ->.
        destruct (H2 k res Hin) as (c' & Hc' & Ho').
        rewrite Hc in Hc'. injection Hc' as <-.
        rewrite Ho in Ho'. injection Ho' as ->.
        now rewrite String.eqb_refl in Hk.
    + unfold one_id, listening. simpl. split; [exact H1|].
      intros k r Hin. apply Hother; [exact Hin|]. intros ->.
      destruct (H2 k res Hin) as (c' & Hc' & Ho').
      rewrite Hc in Hc'. injection Hc' as <-. congruence.
  - simpl. apply (registry_shrinks w); auto using notify_conns.
    apply quiet_incl. now apply notify_quiet.
  - simpl. apply (registry_shrinks w); auto using pubsub_push_conns.
    apply quiet_incl. now apply pubsub_push_quiet.
  - simpl. destruct (subscription w); [|auto].
    apply (registry_shrinks w); auto using handlePubSubMessage_conns.
    apply quiet_incl. now apply handlePubSubMessage_quiet.
  - simpl. apply (registry_shrinks w); auto using incl_refl.
  - simpl. destruct (step_fire k w) as [->|(tm & _ & _ & ->)]; [auto|].
    apply (registry_shrinks w); auto using incl_refl.
  - simpl. unfold sink_change.
    destruct (nth_error (conns w) res) as [c|] eqn:Hc; [|auto].
    destruct (conn_status c); auto;
      (split; [exact H1|]); intros k r Hin; simpl;
      rewrite nth_error_update_nth;
      destruct (Nat.eqb_spec res r) as [<-|]; try (now apply H2);
      destruct (H2 k res Hin) as (c' & Hc' & Ho');
      rewrite Hc; simpl; rewrite Hc in Hc'; injection Hc' as <-; eauto.
Qed.

Lemma registry_reachable w : reachable w -> one_id w /\ listening w.
Proof.
  intros (demo & env & t0 & evs & ->).
  induction evs as [|ev evs IH] using rev_ind.
  - unfold start. destruct (initPubSub demo env) as [[tp sub] ret].
    unfold one_id, listening. simpl.
    split; [intros k1 k2 r H|intros k r H]; contradiction.
  - rewrite run_snoc. apply registry_step; [|exact IH].
    apply Inv_run, Inv_start.
Qed.

Lemma get_set_other (V : Type) (m : JsMap.t V) k v k' :
  k' <> k -> JsMap.get (JsMap.set m k v) k' = JsMap.get m k'.
Proof.
  intros Hne. induction m as [|[[k1 v1]|] m IH]; simpl.
  - destruct (String.eqb_spec k k'); [congruence|reflexivity].
  - destruct (String.eqb_spec k1 k) as [->|Hk]; simpl.
    + destruct (String.eqb_spec k k'); [congruence|reflexivity].
    + now rewrite IH.
  - exact IH.
Qed.

Lemma size_set (V : Type) (m : JsMap.t V) k v :
  JsMap.size (JsMap.set m k v)
  = if JsMap.has m k then JsMap.size m else S (JsMap.size m).
Proof.
  pose proof (JsMapFacts.keys_set V m k v) as H.
  apply (f_equal (@length string)) in H.
  unfold JsMap.keys in H. rewrite length_map in H.
  unfold JsMap.size. rewrite H.
  destruct (JsMap.has m k); rewrite ?length_app, !length_map; simpl; lia.
Qed.

Lemma has_In (V : Type) (m : JsMap.t V) k :
  JsMap.has m k = true <-> In k (JsMap.keys m).
Proof.
  unfold JsMap.has. pose proof (JsMapFacts.get_None V m k) as H.
  destruct (JsMap.get m k); split; intros H'; auto; try discriminate.
  - destruct (in_dec string_dec k (JsMap.keys m)) as [Hin|Hn]; auto.
    apply H in Hn. discriminate.
  - exfalso. now apply (proj1 H).
Qed.

Lemma has_delete (V : Type) (m : JsMap.t V) k :
  JsMap.wf m -> JsMap.has (JsMap.delete m k) k = false.
Proof.
  intros Hwf. destruct (JsMap.has (JsMap.delete m k) k) eqn:H; auto.
  apply has_In in H. unfold JsMap.keys in H.
  rewrite JsMapFacts.entries_delete in H by exact Hwf.
  apply in_map_iff in H as [[k1 v1] [Hk Hin]]. simpl in Hk. subst k1.
  apply filter_In in Hin as [_ Hne]. simpl in Hne.
  now rewrite String.eqb_refl in Hne.
Qed.

Lemma reachable_step w ev : reachable w -> reachable (step w ev).
Proof.
  intros (demo & env & t0 & evs & ->).
  exists demo, env, t0, (evs ++ [ev]). now rewrite run_snoc.
Qed.

(** X10.  In every world the server can be in, no stream is registered under
    two identifiers; so a broadcast writes to each stream at most once. *)
Theorem each_stream_registered_once w notification :
  reachable w ->
  NoDup (map snd (JsMap.entries (clients w))) /\
  NoDup (map (fun x => fst (fst x))
             (broadcast_writes
                (effects_since w (snd (broadcastToClients notification w))))).
Proof.
  intros Hreach.
  destruct (Inv_reachable w Hreach) as (Hwf & _).
  destruct (registry_reachable w Hreach) as [H1 _].
  assert (Hnd : NoDup (map snd (JsMap.entries (clients w)))).
  { apply NoDup_map_determined with (f := fst); [exact Hwf|].
    intros [k1 r1] [k2 r2] Hin1 Hin2 Heq. simpl in *. subst r2.
    eapply H1; eassumption. }
  split; [exact Hnd|].
  rewrite (broadcast_writes_since notification w Hwf), map_map. exact Hnd.
Qed.

Lemma close_conn res w c :
  nth_error (conns w) res = Some c ->
  nth_error (conns (close res w)) res
  = Some {| conn_status := Destroyed; conn_onclose := None |} /\
  clients (close res w)
  = match conn_onclose c with
    | Some clientId => JsMap.delete (clients w) clientId
    | None => clients w
    end /\
  forall r, r <> res -> nth_error (conns (close res w)) r = nth_error (conns w) r.
Proof.
  intros Hc. unfold close. rewrite Hc.
  assert (Hn : nth_error (update_nth res {| conn_status := Destroyed;
                                            conn_onclose := None |} (conns w))
                         res
               = Some {| conn_status := Destroyed; conn_onclose := None |})
    by now rewrite nth_error_update_nth, Nat.eqb_refl, Hc.
  assert (Ho : forall r, r <> res ->
                 nth_error (update_nth res {| conn_status := Destroyed;
                                              conn_onclose := None |} (conns w))
                           r = nth_error (conns w) r).
  { intros r Hne. rewrite nth_error_update_nth.
    destruct (Nat.eqb_spec res r); [congruence|reflexivity]. }
  destruct (conn_onclose c); simpl; auto.
Qed.

(** In every world the server can be in, the close of a connection
    leaves its stream out of the registry: no later broadcast of that world
    writes to it. *)
Theorem close_unregisters w res :
  reachable w -> ~ registered (step w (Close res)) res.
Proof.
  intros Hreach [k Hin].
  destruct (registry_reachable _ (reachable_step w (Close res) Hreach))
    as [_ H2].
  destruct (H2 k res Hin) as (c' & Hc' & Ho'). simpl in *.
  destruct (nth_error (conns w) res) as [c|] eqn:Hc.
  - destruct (close_conn res w c Hc) as (Hn & _ & _).
    rewrite Hn in Hc'. injection Hc' as <-. discriminate.
  - unfold close in Hc'. rewrite Hc in Hc'. congruence.
Qed.

(** X11.  The ['close'] listener deletes by identifier, not by stream: when a
    connection closes, its identifier is free afterwards even if a later
    connection had taken it over, and that later connection, still open, is
    out of the registry and gets no more broadcasts. *)
Theorem close_frees_the_identifier w res c clientId :
  reachable w ->
  nth_error (conns w) res = Some c ->
  conn_onclose c = Some clientId ->
  let w' := step w (Close res) in
  JsMap.has (clients w') clientId = false /\
  forall r2,
    In (clientId, r2) (JsMap.entries (clients w)) ->
    ~ registered w' r2 /\
    (r2 <> res -> sink_status w' r2 = sink_status w r2).
Proof.
  intros Hreach Hc Ho w'. unfold w'. simpl.
  destruct (Inv_reachable w Hreach) as (Hwf & _).
  destruct (registry_reachable w Hreach) as [H1 _].
  destruct (close_conn res w c Hc) as (_ & Hcl & Hoth). rewrite Ho in Hcl.
  split; [rewrite Hcl; now apply has_delete|].
  intros r2 Hin. split.
  - intros [k Hk]. rewrite Hcl in Hk.
    rewrite JsMapFacts.entries_delete in Hk by exact Hwf.
    apply filter_In in Hk as [Hk Hne]. simpl in Hne.
    rewrite (H1 k clientId r2 Hk Hin), String.eqb_refl in Hne. discriminate.
  - intros Hne. unfold sink_status. now rewrite Hoth.
Qed.

(** ** Registering *)

Lemma opened_registry q w :
  Inv w -> one_id w ->
  let clientId := assigned_id q (now w) in
  let res := length (conns w) in
  JsMap.get (clients (opened q w)) clientId = Some res /\
  JsMap.size (clients (opened q w))
  = (if JsMap.has (clients w) clientId then JsMap.size (clients w)
     else S (JsMap.size (clients w))) /\
  (forall r0, JsMap.get (clients w) clientId = Some r0 ->
              ~ registered (opened q w) r0) /\
  (forall k, k <> clientId ->
             JsMap.get (clients (opened q w)) k = JsMap.get (clients w) k).
Proof.
  intros (Hwf & Hreg & _ & _) H1 clientId res. unfold opened. simpl.
  fold clientId res.
  split; [apply JsMapFacts.get_set_same|]. split; [apply size_set|].
  split; [|intros k Hne; now apply get_set_other].
  intros r0 Hget [k Hk].
  apply JsMapFacts.get_In in Hget.
  assert (Hlt : r0 < res) by (now apply Hreg in Hget).
  assert (Hnew : In (clientId, res)
                    (JsMap.entries (JsMap.set (clients w) clientId res)))
    by apply JsMapFacts.get_In, JsMapFacts.get_set_same.
  pose proof (JsMapFacts.wf_set nat (clients w) clientId res Hwf) as Hwf'.
  pose proof Hk as Hk'.
  apply JsMapFacts.In_entries_set in Hk' as [[_ ->]|Hold]; [lia|].
  rewrite (H1 k clientId r0 Hold Hget) in Hk.
  pose proof (JsMapFacts.NoDup_keys_functional _ _ clientId r0 res Hwf' Hk Hnew).
  lia.
Qed.

(** X12.  GET /events registers by last write wins: afterwards the assigned
    identifier maps to the new stream; the registry has grown by one, unless
    the identifier was taken, in which case the size is the same and the
    stream that held the identifier is no longer registered (it is not
    closed, and gets no more broadcasts); all other identifiers map as
    before. *)
Theorem events_last_write_wins w q :
  reachable w ->
  let clientId := assigned_id q (now w) in
  let res := length (conns w) in
  let w' := step w (GetEvents q) in
  JsMap.get (clients w') clientId = Some res /\
  JsMap.size (clients w')
  = (if JsMap.has (clients w) clientId then JsMap.size (clients w)
     else S (JsMap.size (clients w))) /\
  (forall r0, JsMap.get (clients w) clientId = Some r0 ->
              ~ registered w' r0 /\ sink_status w' r0 = sink_status w r0) /\
  (forall k, k <> clientId ->
             JsMap.get (clients w') k = JsMap.get (clients w) k).
Proof.
  intros Hreach clientId res w'. unfold w'. rewrite step_get_events.
  pose proof (Inv_reachable w Hreach) as HI.
  destruct (registry_reachable w Hreach) as [H1 _].
  destruct (opened_registry q w HI H1) as (Hget & Hsize & Hold & Hoth).
  split; [exact Hget|]. split; [exact Hsize|]. split; [|exact Hoth].
  intros r0 Hr0. split; [now apply Hold|].
  unfold sink_status, opened. simpl.
  rewrite nth_error_app1; [reflexivity|].
  destruct HI as (_ & Hreg & _). apply (Hreg clientId).
  now apply JsMapFacts.get_In.
Qed.

(** X13.  Generated identifiers are [client_<clock>]: two GET /events
    requests without [clientId] served within the same millisecond get the
    same identifier, so the second takes the place of the first in the
    registry and the first stream, still open, gets no broadcasts. *)
Theorem same_millisecond_ids_collide w :
  reachable w ->
  let w1 := step w (GetEvents None) in
  let w2 := step w1 (GetEvents None) in
  assigned_id None (now w1) = assigned_id None (now w) /\
  JsMap.size (clients w2) = JsMap.size (clients w1) /\
  JsMap.get (clients w2) (assigned_id None (now w))
  = Some (S (length (conns w))) /\
  ~ registered w2 (length (conns w)) /\
  sink_status w2 (length (conns w)) = Writable.
Proof.
  intros Hreach w1 w2.
  pose proof (reachable_step w (GetEvents None) Hreach) as Hreach1.
  fold w1 in Hreach1.
  pose proof (Inv_reachable w1 Hreach1) as HI1.
  destruct (registry_reachable w1 Hreach1) as [H1 _].
  destruct (opened_registry None w1 HI1 H1) as (Hget & Hsize & Hold & _).
  assert (Hw1 : w1 = opened None w) by apply step_get_events.
  assert (Hw2 : w2 = opened None w1) by apply step_get_events.
  assert (Hnow : now w1 = now w) by now rewrite Hw1.
  assert (Hlen : length (conns w1) = S (length (conns w)))
    by (rewrite Hw1; unfold opened; simpl; rewrite length_app; simpl; lia).
  assert (Hg1 : JsMap.get (clients w1) (assigned_id None (now w1))
                = Some (length (conns w))).
  { rewrite Hnow, Hw1. unfold opened. simpl. apply JsMapFacts.get_set_same. }
  rewrite <- Hw2 in *.
  split; [now rewrite Hnow|]. split; [|split; [|split]].
  - rewrite Hsize. unfold JsMap.has. now rewrite Hg1.
  - rewrite <- Hnow, <- Hlen. exact Hget.
  - now apply Hold.
  - rewrite Hw2, Hw1. unfold sink_status, opened. simpl.
    rewrite nth_error_app1 by (rewrite length_app; simpl; lia).
    now rewrite nth_error_app2, Nat.sub_diag by lia.
Qed.

(** ** GET /clients *)

(** X14.  GET /clients answers with the registered identifiers, each once,
    and their number: an identifier is listed exactly when the registry has
    it, and the count is the number of writes that a broadcast would make. *)
Theorem clients_listing w notification :
  JsMap.wf (clients w) ->
  exists ids,
    get_clients w
    = RespJson 200
        (JObj [("clients", JArr (map JStr ids));
               ("count", JNum (Z.of_nat (length ids)))]) /\
    NoDup ids /\
    (forall k, In k ids <-> JsMap.has (clients w) k = true) /\
    length (broadcast_writes
              (effects_since w (snd (broadcastToClients notification w))))
    = length ids.
Proof.
  intros Hwf. exists (JsMap.keys (clients w)).
  split; [reflexivity|]. split; [exact Hwf|]. split.
  - intros k. symmetry. apply has_In.
  - rewrite (broadcast_writes_since notification w Hwf).
    unfold JsMap.keys. now rewrite !length_map.
Qed.

(** ** Two broadcasts in a row *)

(** X15.  A broadcast heals the registry: right after one broadcast, a second
    one finds no throwing stream, deletes nothing, and counts every
    registered connection. *)
Theorem broadcast_heals_registry n1 n2 w :
  JsMap.wf (clients w) ->
  let w1 := snd (broadcastToClients n1 w) in
  let w2 := snd (broadcastToClients n2 w1) in
  JsMap.entries (clients w2) = JsMap.entries (clients w1) /\
  successes (effects_since w1 w2) = JsMap.size (clients w1) /\
  logged_count (effects_since w1 w2) = Some (JsMap.size (clients w1)).
Proof.
  intros Hwf w1 w2.
  destruct (broadcast_clients n1 w Hwf) as [Hwf1 Hent1]. fold w1 in Hwf1, Hent1.
  destruct (broadcast_frame n1 w Hwf) as (_ & _ & _ & _ & Hc & _).
  fold w1 in Hc.
  destruct (broadcast_clients n2 w1 Hwf1) as [_ Hent2]. fold w2 in Hent2.
  assert (Hok : forall e, In e (JsMap.entries (clients w1)) ->
                          negb (throwing w1 (snd e)) = true).
  { intros e He. rewrite Hent1 in He. apply filter_In in He as [_ He].
    now rewrite (throwing_conns w w1 (snd e) Hc). }
  assert (Hall : filter (fun e => negb (throwing w1 (snd e)))
                        (JsMap.entries (clients w1))
                 = JsMap.entries (clients w1))
    by now apply JsMapFacts.filter_all.
  split; [now rewrite Hent2|].
  assert (Hs : successes (effects_since w1 w2) = JsMap.size (clients w1)).
  { unfold w2. rewrite (successes_since n2 w1 Hwf1). unfold sent, JsMap.size.
    now rewrite Hall. }
  split; [exact Hs|].
  unfold w2. rewrite (broadcast_effects n2 w1 Hwf1), logged_count_last.
  unfold sent, JsMap.size. now rewrite Hall.
Qed.

(** ** The run properties at sample worlds *)

Lemma w_abc_cloud_reachable : reachable w_abc_cloud.
Proof.
  exists false, env_cloud, 100%N,
    [GetEvents (Some "A"); GetEvents (Some "B"); GetEvents (Some "C");
     SinkChange 1 Throws].
  reflexivity.
Defined.

Lemma w_superseded_reachable : reachable w_superseded.
Proof.
  exists false, env_local, 100%N, [GetEvents (Some "A"); GetEvents (Some "A")].
  reflexivity.
Defined.

Lemma subscription_implies_topic_witness : topic w_abc_cloud = true.
Proof.
  assert (Hs : subscription w_abc_cloud = true) by (vm_compute; reflexivity).
  exact (proj1 (subscription_implies_topic w_abc_cloud w_abc_cloud_reachable)
               Hs).
Defined.

Lemma each_stream_registered_once_witness :
  NoDup (map snd (JsMap.entries (clients w_abc))).
Proof.
  exact (proj1 (each_stream_registered_once w_abc sample_notification
                  w_abc_reachable)).
Defined.

Lemma close_unregisters_witness : ~ registered (step w_abc (Close 0)) 0.
Proof. exact (close_unregisters w_abc 0 w_abc_reachable). Defined.

Lemma close_frees_the_identifier_witness :
  JsMap.has (clients (step w_superseded (Close 0))) "A" = false /\
  ~ registered (step w_superseded (Close 0)) 1.
Proof.
  assert (Hc : nth_error (conns w_superseded) 0
               = Some {| conn_status := Writable; conn_onclose := Some "A" |})
    by (vm_compute; reflexivity).
  assert (Hin : In ("A", 1) (JsMap.entries (clients w_superseded)))
    by (vm_compute; left; reflexivity).
  destruct (close_frees_the_identifier w_superseded 0
              {| conn_status := Writable; conn_onclose := Some "A" |} "A"
              w_superseded_reachable Hc eq_refl) as [H1 H2].
  split; [exact H1|exact (proj1 (H2 1 Hin))].
Defined.

Lemma events_last_write_wins_witness :
  JsMap.get (clients (step w_abc (GetEvents (Some "A"))))
            (assigned_id (Some "A") (now w_abc))
  = Some (length (conns w_abc)).
Proof.
  exact (proj1 (events_last_write_wins w_abc (Some "A") w_abc_reachable)).
Defined.

Lemma same_millisecond_ids_collide_witness :
  ~ registered (step (step w_abc (GetEvents None)) (GetEvents None))
               (length (conns w_abc)).
Proof.
  destruct (same_millisecond_ids_collide w_abc w_abc_reachable)
    as (_ & _ & _ & H & _).
  exact H.
Defined.

Lemma clients_listing_witness :
  exists ids,
    get_clients w_abc
    = RespJson 200
        (JObj [("clients", JArr (map JStr ids));
               ("count", JNum (Z.of_nat (length ids)))]) /\
    NoDup ids /\
    (forall k, In k ids <-> JsMap.has (clients w_abc) k = true) /\
    length (broadcast_writes
              (effects_since w_abc
                 (snd (broadcastToClients sample_notification w_abc))))
    = length ids.
Proof. exact (clients_listing w_abc sample_notification w_abc_wf). Defined.

Lemma broadcast_heals_registry_witness :
  JsMap.entries
    (clients (snd (broadcastToClients sample_notification
                     (snd (broadcastToClients sample_notification w_abc)))))
  = JsMap.entries (clients (snd (broadcastToClients sample_notification w_abc))).
Proof.
  exact (proj1 (broadcast_heals_registry sample_notification
                  sample_notification w_abc w_abc_wf)).
Defined.

(** ** Closed for good *)

Lemma closed_step w ev res :
  JsMap.wf (clients w) -> closed w res -> closed (step w ev) res.
Proof.
  intros Hwf (c & Hc & Ho).
  assert (Hlt : res < length (conns w))
    by (apply nth_error_Some; congruence).
  assert (Hsame : forall w', conns w' = conns w -> closed w' res)
    by (intros w' Hw'; exists c; now rewrite Hw').
  destruct ev as [q|r|body outcome|body decoded|m|ms|k|r st];
    [rewrite step_get_events|simpl..].
  - unfold closed, opened. simpl.
    rewrite nth_error_app1 by exact Hlt. eauto.
  - destruct (nth_error (conns w) r) as [c'|] eqn:Hc'.
    + destruct (close_conn r w c' Hc') as (Hn & _ & Hoth).
      destruct (Nat.eq_dec res r) as [->|Hne].
      * eexists. split; [exact Hn|reflexivity].
      * exists c. now rewrite Hoth.
    + unfold close. rewrite Hc'. now exists c.
  - now apply Hsame, notify_conns.
  - now apply Hsame, pubsub_push_conns.
  - destruct (subscription w); [|now exists c].
    now apply Hsame, handlePubSubMessage_conns.
  - now exists c.
  - destruct (step_fire k w) as [->|(tm & _ & _ & ->)]; now exists c.
  - unfold sink_change.
    destruct (nth_error (conns w) r) as [c'|] eqn:Hc'; [|now exists c].
    destruct (conn_status c'); try (now exists c);
      unfold closed; simpl; rewrite nth_error_update_nth;
      destruct (Nat.eqb_spec r res) as [->|]; try (now exists c);
      rewrite Hc; simpl; rewrite Hc in Hc'; injection Hc' as <-; eauto.
Qed.

Lemma closed_run evs :
  forall w res, Inv w -> closed w res -> closed (run w evs) res.
Proof.
  induction evs as [|ev evs IH]; intros w res HI Hc; [exact Hc|].
  simpl. apply IH; [now apply Inv_step|].
  apply closed_step; [exact (proj1 HI)|exact Hc].
Qed.

Lemma reachable_run w evs : reachable w -> reachable (run w evs).
Proof.
  intros (demo & env & t0 & evs0 & ->).
  exists demo, env, t0, (evs0 ++ evs). unfold run. now rewrite fold_left_app.
Qed.

(** X16.  Once a connection was closed, its stream is never in the registry
    again, whatever happens afterwards: no later broadcast writes to the
    stream of a closed connection. *)
Theorem closed_never_registered_again w res evs :
  reachable w ->
  res < length (conns w) ->
  ~ registered (run (step w (Close res)) evs) res.
Proof.
  intros Hreach Hlt [k Hin].
  pose proof (reachable_step w (Close res) Hreach) as Hreach1.
  assert (Hcl : closed (step w (Close res)) res).
  { destruct (nth_error (conns w) res) as [c|] eqn:Hc;
      [|apply nth_error_None in Hc; lia].
    destruct (close_conn res w c Hc) as (Hn & _ & _).
    eexists. split; [exact Hn|reflexivity]. }
  destruct (closed_run evs _ res (Inv_reachable _ Hreach1) Hcl)
    as (c & Hc & Ho).
  destruct (registry_reachable _ (reachable_run _ evs Hreach1)) as [_ H2].
  destruct (H2 k res Hin) as (c' & Hc' & Ho'). congruence.
Qed.

Lemma closed_never_registered_again_witness :
  ~ registered
      (run (step w_abc (Close 0))
           [GetEvents (Some "A");
            PostNotify body_hello PublishFailed]) 0.
Proof.
  assert (Hlt : 0 < length (conns w_abc)) by (vm_compute; lia).
  exact (closed_never_registered_again w_abc 0
           [GetEvents (Some "A"); PostNotify body_hello PublishFailed]
           w_abc_reachable Hlt).
Defined.

(** ** The welcome *)

Lemma welcome_attempts_app res tr1 tr2 :
  welcome_attempts res (tr1 ++ tr2)
  = welcome_attempts res tr1 + welcome_attempts res tr2.
Proof.
  induction tr1 as [|e tr1 IH]; simpl; auto.
  destruct e as [[] r f x| | |]; auto.
  destruct (r =? res)%nat; simpl; now rewrite IH.
Qed.

Lemma welcome_attempts_fresh res tr :
  (forall site f x, ~ In (EWrite site res f x) tr) ->
  welcome_attempts res tr = 0.
Proof.
  induction tr as [|e tr IH]; simpl; intros H; auto.
  assert (IH' : welcome_attempts res tr = 0).
  { apply IH. intros site f x Hin. apply (H site f x). now right. }
  destruct e as [[] r f x| | |]; auto.
  destruct (Nat.eqb_spec r res) as [->|]; auto.
  exfalso. apply (H SiteWelcome f x). now left.
Qed.

Lemma welcome_attempts_broadcast w res new :
  Forall (broadcast_effect w) new -> welcome_attempts res new = 0.
Proof.
  induction 1 as [|e new He _ IH]; simpl; auto.
  destruct e as [[] r f x| | |]; auto.
  simpl in He. destruct He as [He _]. discriminate.
Qed.

Lemma pending_welcome_app res ts1 ts2 :
  pending_welcome res (ts1 ++ ts2)
  = pending_welcome res ts1 + pending_welcome res ts2.
Proof. induction ts1 as [|tm ts1 IH]; simpl; auto. rewrite IH. lia. Qed.

Lemma pending_welcome_fresh res ts :
  (forall tm, In tm ts -> task_res (task tm) <> res) ->
  pending_welcome res ts = 0.
Proof.
  induction ts as [|tm ts IH]; intros H; simpl; auto.
  rewrite IH by (intros; apply H; now right).
  assert (Hne : task_res (task tm) <> res) by (apply H; now left).
  destruct (task tm) as [r|r s i]; simpl in *; auto.
  destruct (Nat.eqb_spec r res); [contradiction|reflexivity].
Qed.

Lemma pending_welcome_script res r t samples :
  forall index, pending_welcome res (script_timers r t samples index) = 0.
Proof. induction samples as [|s samples IH]; intros index; simpl; auto. Qed.

Lemma pending_welcome_remove_nth res ts :
  forall k tm,
    nth_error ts k = Some tm ->
    pending_welcome res ts
    = task_welcome res (task tm) + pending_welcome res (remove_nth k ts).
Proof.
  induction ts as [|tm' ts IH]; intros [|k] tm Hnth; simpl in Hnth;
    try discriminate.
  - now injection Hnth as ->.
  - simpl. rewrite (IH k tm Hnth). lia.
Qed.

Lemma welcome_attempts_task res tk t x :
  welcome_attempts res
    [EWrite (fst (task_write tk t)) (task_res tk) (snd (task_write tk t)) x]
  = task_welcome res tk.
Proof.
  destruct tk as [r|r s i]; simpl; auto; now destruct (r =? res)%nat.
Qed.

Local Opaque DEMO_NOTIFICATIONS.

Lemma welcomed_step w ev : Inv w -> welcomed w -> welcomed (step w ev).
Proof.
  intros (Hwf & Hreg & Htm & Htr) Hw.
  destruct (step_cases w ev Hwf)
    as [Hq|[[q ->]|(k & tm & Hnth & Hdue & ->)]].
  - destruct Hq as (Hd & _ & _ & Ht & Hlen & _ & _ & _ & new & Hnew & Hall).
    intros res Hres. rewrite Ht, Hnew, Hd, welcome_attempts_app.
    rewrite (welcome_attempts_broadcast w res new Hall), Nat.add_0_r.
    apply Hw. now rewrite <- Hlen.
  - intros res Hres. unfold opened in *. simpl in *.
    rewrite length_app in Hres. simpl in Hres.
    rewrite welcome_attempts_app, pending_welcome_app. simpl.
    destruct (Nat.eq_dec res (length (conns w))) as [->|Hne].
    + rewrite welcome_attempts_fresh
        by (intros site f x Hin; apply Htr in Hin; lia).
      rewrite (pending_welcome_fresh (length (conns w)) (timers w))
        by (intros tm Hin; apply Htm in Hin; lia).
      destruct (DEMO_MODE w); [|reflexivity].
      unfold demo_timers. simpl.
      now rewrite ?Nat.eqb_refl, pending_welcome_script.
    + rewrite (pending_welcome_fresh res (if DEMO_MODE w then _ else _)).
      * rewrite !Nat.add_0_r. apply Hw. lia.
      * intros tm Hin. destruct (DEMO_MODE w); [|contradiction].
        apply demo_timers_res in Hin as [-> _]. lia.
  - intros res Hres. unfold fired in *. simpl in *.
    rewrite welcome_attempts_app, welcome_attempts_task.
    specialize (Hw res Hres).
    rewrite (pending_welcome_remove_nth res (timers w) k tm Hnth) in Hw.
    lia.
Qed.

Local Transparent DEMO_NOTIFICATIONS.

(** X17.  In demo mode every connection gets one welcome timer: at any later
    moment the welcome of a stream is either still pending or was written,
    never both and never twice; after the timer has run, exactly one welcome
    write was made on the stream. *)
Theorem one_welcome_per_connection env t0 evs res :
  let w := run (start true env t0) evs in
  res < length (conns w) ->
  welcome_attempts res (trace w) + pending_welcome res (timers w) = 1.
Proof.
  intros w Hres.
  assert (Hdemo : DEMO_MODE w = true).
  { unfold w. rewrite run_DEMO_MODE by apply Inv_start.
    unfold start. now destruct (initPubSub true env) as [[tp sub] ret]. }
  assert (Hw : welcomed w).
  { unfold w. clear Hres Hdemo. induction evs as [|ev evs IH] using rev_ind.
    - unfold start. destruct (initPubSub true env) as [[tp sub] ret].
      intros r Hr. simpl in Hr. lia.
    - rewrite run_snoc. apply welcomed_step; [|exact IH].
      apply Inv_run, Inv_start. }
  specialize (Hw res Hres). now rewrite Hdemo in Hw.
Qed.

Lemma one_welcome_per_connection_witness :
  welcome_attempts 0 (trace w_demo_played)
  + pending_welcome 0 (timers w_demo_played) = 1.
Proof.
  assert (Hres : 0 < length (conns (run (start true env_local 100) evs_played)))
    by (vm_compute; lia).
  unfold w_demo_played.
  exact (one_welcome_per_connection env_local 100 evs_played 0 Hres).
Defined.
